(** * Tradix ERP: supplier-quote storage and customer routes

    A shallow embedding of

    - [SupplierQuoteStorage] in its two variants (the note-derived
      [list] of the first file and the join-derived [list] of the
      second; [hasReferences] and [delete] are the same in both), and
    - the [GET /api/customers] handler of [server/routes/customers.ts],

    together with the properties the specification states about them.

    Conventions.  A JavaScript string is a Rocq [string]; a character is
    read as the code unit of the same number, so the strings covered are
    those whose code units are below 256.  A value that may be [null] or
    [undefined] is an [option]; the two are not told apart because the
    code never does.  A table is the list of its rows.  The queries of
    [list] have no [ORDER BY], so the order of their rows is the store's
    choice: the model gives them in the order of the tables, and what is
    proved of the rows of [list] is stated by membership or up to
    permutation. *)

From Stdlib Require Import List Bool Arith ZArith Lia Permutation.
From Stdlib Require QArith Qround.
From Stdlib Require Import Ascii String.
Import ListNotations.

Set Implicit Arguments.

Local Open Scope string_scope.
Local Open Scope list_scope.

(** ** The tables of [@shared/schema] that the code reads and writes *)

Module Schema.

(** A row of [quotations].  Only the columns that [list], [delete] and the
    filters inspect are named; the others are carried along untouched by
    the spread [...row.quotation]. *)
Record Quotation := {
  q_id : string;
  q_quoteNumber : option string;
  q_customerId : option string;
  q_status : option string;
  q_validUntil : option string;
  q_notes : option string
}.

Record QuotationItem := {
  qi_id : string;
  qi_quotationId : option string;
  qi_description : option string
}.

(** A row of [customers].  [customerName], [companyName], [fullName] and
    [billingAddress] are the alternative fields the code falls back to. *)
Record Customer := {
  c_id : string;
  c_name : option string;
  c_customerName : option string;
  c_companyName : option string;
  c_fullName : option string;
  c_email : option string;
  c_phone : option string;
  c_address : option string;
  c_billingAddress : option string;
  c_customerType : option string
}.

(** A row of the separate [suppliers] table of the note-derived variant.
    The code guards every use of [name] with [?.], so it is nullable. *)
Record Supplier := {
  s_id : string;
  s_name : option string;
  s_email : option string;
  s_phone : option string;
  s_address : option string
}.

Record SalesOrder := {
  so_id : string;
  so_quotationId : option string;
  so_customerId : option string
}.

Record CustomerAcceptance := {
  ca_id : string;
  ca_quotationId : option string
}.

Record PurchaseOrder := {
  po_id : string;
  po_quotationId : option string
}.

Record DB := {
  quotations : list Quotation;
  quotationItems : list QuotationItem;
  customers : list Customer;
  suppliers : list Supplier;
  salesOrders : list SalesOrder;
  customerAcceptances : list CustomerAcceptance;
  purchaseOrders : list PurchaseOrder
}.

(** [eq(column, value)] of the query builder: SQL equality, which a NULL
    column never satisfies. *)
Definition sql_eq (col : option string) (v : string) : bool :=
  match col with
  | Some c => String.eqb c v
  | None => false
  end.

End Schema.

(** ** Store effects: statements that may fail, and transactions *)

Module Store.
Import Schema.

Inductive result (A : Type) : Type :=
| Ok (a : A)
| Err (e : string).
Arguments Ok {A} a.
Arguments Err {A} e.

(** The world a storage call runs in: the database, and a schedule that
    says, for each statement still to be issued, whether the store
    rejects it ([true]).  An exhausted schedule rejects nothing. *)
Record World := {
  w_db : DB;
  w_faults : list bool
}.

Definition M (A : Type) : Type := World -> result A * World.

Definition ret {A} (a : A) : M A := fun w => (Ok a, w).

Definition bind {A B} (m : M A) (k : A -> M B) : M B :=
  fun w =>
    match m w with
    | (Ok a, w') => k a w'
    | (Err e, w') => (Err e, w')
    end.

Notation "x <- m ;; k" := (bind m (fun x => k))
  (at level 61, m at next level, right associativity).
Notation "m ;;; k" := (bind m (fun _ => k))
  (at level 61, right associativity).

(** One awaited write statement.  A rejected statement throws and changes
    nothing; an accepted one applies [f]. *)
Definition stmt (f : DB -> DB) : M unit :=
  fun w =>
    match w_faults w with
    | true :: fs => (Err "statement rejected", {| w_db := w_db w; w_faults := fs |})
    | false :: fs => (Ok tt, {| w_db := f (w_db w); w_faults := fs |})
    | [] => (Ok tt, {| w_db := f (w_db w); w_faults := [] |})
    end.

(** Modelled from the spec: the store's transactional scoping
    ([db.transaction] of [../db], which is not among the sources).  The
    callback runs on the live state; when it throws the state of entry is
    restored and the error is rethrown; when it returns the commit is one
    more step that the store may reject, again restoring the state of
    entry. *)
Definition transaction {A} (body : M A) : M A :=
  fun w =>
    match body w with
    | (Ok a, w') =>
        match w_faults w' with
        | true :: fs => (Err "commit rejected", {| w_db := w_db w; w_faults := fs |})
        | false :: fs => (Ok a, {| w_db := w_db w'; w_faults := fs |})
        | [] => (Ok a, w')
        end
    | (Err e, w') => (Err e, {| w_db := w_db w; w_faults := w_faults w' |})
    end.

(** A world in which the store rejects nothing. *)
Definition calm (db : DB) : World := {| w_db := db; w_faults := [] |}.

(** The store accepts the next [n] statements of the schedule. *)
Definition accepts (n : nat) (faults : list bool) : bool :=
  forallb negb (firstn n faults).

End Store.

(** ** Parts common to both variants of [SupplierQuoteStorage] *)

Module SupplierQuoteStorage.
Import Schema Store.

(** [hasReferences(id)].  The three selects of [Promise.all] only read,
    so they see the same database. *)
Definition hasReferences (db : DB) (id : string) : bool :=
  let salesOrderRefs :=
    firstn 1 (map so_id (filter (fun r => sql_eq (so_quotationId r) id) (salesOrders db))) in
  let customerAcceptanceRefs :=
    firstn 1 (map ca_id (filter (fun r => sql_eq (ca_quotationId r) id) (customerAcceptances db))) in
  let purchaseOrderRefs :=
    firstn 1 (map po_id (filter (fun r => sql_eq (po_quotationId r) id) (purchaseOrders db))) in
  ((0 <? List.length salesOrderRefs)%nat
   || (0 <? List.length customerAcceptanceRefs)%nat
   || (0 <? List.length purchaseOrderRefs)%nat)%bool.

(** [tx.delete(quotationItems).where(eq(quotationItems.quotationId, id))] *)
Definition delete_items (id : string) (db : DB) : DB :=
  {| quotations := quotations db;
     quotationItems :=
       filter (fun it => negb (sql_eq (qi_quotationId it) id)) (quotationItems db);
     customers := customers db;
     suppliers := suppliers db;
     salesOrders := salesOrders db;
     customerAcceptances := customerAcceptances db;
     purchaseOrders := purchaseOrders db |}.

(** [tx.delete(quotations).where(eq(quotations.id, id))] *)
Definition delete_quotation (id : string) (db : DB) : DB :=
  {| quotations := filter (fun q => negb (String.eqb (q_id q) id)) (quotations db);
     quotationItems := quotationItems db;
     customers := customers db;
     suppliers := suppliers db;
     salesOrders := salesOrders db;
     customerAcceptances := customerAcceptances db;
     purchaseOrders := purchaseOrders db |}.

Record Ack := { message : string }.

Definition deleted_ack : Ack :=
  {| message := "Supplier quote deleted successfully" |}.

(** The callback handed to [db.transaction]. *)
Definition delete_body (id : string) : M unit :=
  stmt (delete_items id) ;;; stmt (delete_quotation id).

(** [delete(id)] *)
Definition delete (id : string) : M Ack :=
  transaction (delete_body id) ;;; ret deleted_ack.

(** The database after both statements of the callback. *)
Definition both_deleted (id : string) (db : DB) : DB :=
  delete_quotation id (delete_items id db).

(** What it means for [db'] to be [db] with the quotation [id] and its
    line items removed, and nothing else touched. *)
Definition removed (id : string) (db db' : DB) : Prop :=
  (forall it, In it (quotationItems db') <->
              In it (quotationItems db) /\ qi_quotationId it <> Some id)
  /\ (forall q, In q (quotations db') <->
                In q (quotations db) /\ q_id q <> id)
  /\ customers db' = customers db
  /\ suppliers db' = suppliers db
  /\ salesOrders db' = salesOrders db
  /\ customerAcceptances db' = customerAcceptances db
  /\ purchaseOrders db' = purchaseOrders db.

(** Modelled from the spec: the declaration of [suppliers.name] in
    [@shared/schema], which is not among the sources.  The specification
    gives every supplier a name and never a null [supplierName]: the
    column is not null. *)
Definition suppliers_named (db : DB) : Prop :=
  forall s, In s (suppliers db) -> s_name s <> None.

(** The foreign key of [quotationItems.quotationId] that the comment in
    [delete] refers to: a line item that names a parent names a
    quotation of the table. *)
Definition items_have_parent (db : DB) : Prop :=
  forall it p,
    In it (quotationItems db) -> qi_quotationId it = Some p ->
    exists q, In q (quotations db) /\ q_id q = p.

End SupplierQuoteStorage.

(** ** The JavaScript string and value operations the code calls *)

Module Js.

(** Truthiness of a value that is a string, [null] or [undefined]. *)
Definition truthy (v : option string) : bool :=
  match v with
  | Some s => negb (String.eqb s "")
  | None => false
  end.

(** [a || b] *)
Definition js_or (a b : option string) : option string :=
  if truthy a then a else b.

(** [v !== lit] for a string literal [lit] *)
Definition strict_ne (v : option string) (lit : string) : bool :=
  match v with
  | Some s => negb (String.eqb s lit)
  | None => true
  end.

Definition code (c : ascii) : nat := nat_of_ascii c.

Definition in_range (lo hi : nat) (c : ascii) : bool :=
  ((lo <=? code c)%nat && (code c <=? hi)%nat)%bool.

(** [toLowerCase] on code units below 256: the letters A-Z, and the
    capital letters of the Latin-1 block (U+00C0 to U+00DE without the
    multiplication sign U+00D7), move up by 32. *)
Definition lower_char (c : ascii) : ascii :=
  if (in_range 65 90 c
      || (in_range 192 222 c && negb (code c =? 215)%nat))%bool
  then ascii_of_nat (code c + 32)
  else c.

Fixpoint toLowerCase (s : string) : string :=
  match s with
  | EmptyString => EmptyString
  | String c s' => String (lower_char c) (toLowerCase s')
  end.

(** White space that [trim] and [parseInt] strip, among code units below
    256: TAB, LF, VT, FF, CR, SPACE and NO-BREAK SPACE. *)
Definition is_ws (c : ascii) : bool :=
  (in_range 9 13 c || (code c =? 32)%nat || (code c =? 160)%nat)%bool.

Fixpoint trimStart (s : string) : string :=
  match s with
  | EmptyString => EmptyString
  | String c s' => if is_ws c then trimStart s' else s
  end.

(** [trimEnd s]: drop the white space after the last other character. *)
Fixpoint trimEnd (s : string) : string :=
  match s with
  | EmptyString => EmptyString
  | String c s' =>
      match trimEnd s' with
      | EmptyString => if is_ws c then EmptyString else String c EmptyString
      | t => String c t
      end
  end.

Definition trim (s : string) : string := trimEnd (trimStart s).

(** [a.includes(b)]: [b] occurs in [a] as a substring. *)
Fixpoint includes (a b : string) : bool :=
  (String.prefix b a
   || match a with
      | EmptyString => false
      | String _ a' => includes a' b
      end)%bool.

(** [s.split(sep)] for a one-character separator. *)
Fixpoint split (sep : ascii) (s : string) : list string :=
  match s with
  | EmptyString => [EmptyString]
  | String c s' =>
      if Ascii.eqb c sep then EmptyString :: split sep s'
      else match split sep s' with
           | h :: t => String c h :: t
           | [] => [String c EmptyString]
           end
  end.

End Js.

(** ** A backtracking matcher for the regular expression of the notes *)

Module Regex.

Inductive re : Type :=
| Eps
| Lit (c : ascii)       (* a pattern character, compared under the [i] flag *)
| NotChar (c : ascii)   (* the class [^c] *)
| Seq (r1 r2 : re)
| Opt (r : re)          (* greedy [r?] *)
| Star (r : re).        (* greedy [r*] *)

Definition Plus (r : re) : re := Seq r (Star r).

(** Canonicalisation of the [i] flag (without [u]) on code units below
    256: the simple upper case.  U+00B5 and U+00FF, whose upper case lies
    outside this range and is the image of no other such unit, and
    U+00DF, whose upper case is two units long, stand for themselves. *)
Definition canon (c : ascii) : ascii :=
  if (Js.in_range 97 122 c
      || (Js.in_range 224 254 c && negb (Js.code c =? 247)%nat))%bool
  then ascii_of_nat (Js.code c - 32)
  else c.

(** [m r s k]: match [r] at the front of [s] and hand what is left to
    the continuation [k]; alternatives are tried in the order of the
    ECMAScript semantics (greedy first), and the first that makes [k]
    succeed wins.  An iteration of [Star] that consumes nothing is
    rejected, as the language prescribes; every accepted iteration
    shortens the input, so [S (length s)] iterations are never used
    up. *)
Fixpoint m {R : Type} (r : re) (s : list ascii) (k : list ascii -> option R)
  {struct r} : option R :=
  match r with
  | Eps => k s
  | Lit p =>
      match s with
      | c :: s' => if Ascii.eqb (canon c) (canon p) then k s' else None
      | [] => None
      end
  | NotChar p =>
      match s with
      | c :: s' => if Ascii.eqb (canon c) (canon p) then None else k s'
      | [] => None
      end
  | Seq r1 r2 => m r1 s (fun s' => m r2 s' k)
  | Opt r1 =>
      match m r1 s k with
      | Some x => Some x
      | None => k s
      end
  | Star r1 =>
      (fix star (fuel : nat) (s : list ascii) {struct fuel} : option R :=
         match fuel with
         | O => k s
         | S fuel' =>
             match m r1 s (fun s' =>
                             if (List.length s' <? List.length s)%nat
                             then star fuel' s' else None) with
             | Some x => Some x
             | None => k s
             end
         end) (S (List.length s)) s
  end.

(** A pattern of the shape [/pre(body)/]: the text matched by [body] is
    capture group 1. *)
Definition match_here (pre body : re) (s : list ascii) : option (list ascii) :=
  m pre s (fun s1 =>
    m body s1 (fun s2 =>
      Some (firstn (List.length s1 - List.length s2) s1))).

(** The leftmost match, as [String.prototype.match] finds it for a
    pattern without the [g] flag. *)
Fixpoint search (pre body : re) (s : list ascii) : option (list ascii) :=
  match match_here pre body s with
  | Some g => Some g
  | None =>
      match s with
      | [] => None
      | _ :: s' => search pre body s'
      end
  end.

Fixpoint lits (s : string) : re :=
  match s with
  | EmptyString => Eps
  | String c s' => Seq (Lit c) (lits s')
  end.

(** The pattern of the notes is [suppliers?: ] followed by one capture
    group, under the [i] flag.  This is the part before the group. *)
Definition supplier_pre : re :=
  Seq (lits "supplier") (Seq (Opt (Lit "s")) (lits ": ")).

(** The group: [[^,]+], then any number of times a comma, a space and
    [[^,]+] again. *)
Definition supplier_group : re :=
  Seq (Plus (NotChar ","))
      (Star (Seq (lits ", ") (Plus (NotChar ",")))).

(** [notes.match(...)] with that pattern, reduced to the element [1] of
    the array it returns; [None] is the [null] of no match. *)
Definition match_suppliers (notes : string) : option string :=
  option_map string_of_list_ascii
    (search supplier_pre supplier_group (list_ascii_of_string notes)).

End Regex.

(** ** What both variants of [list] share: parameters, filters, joins *)

Module Listing.
Import Schema Js.

(** The [params] object of [list] with each field a string or absent.
    The parameter is declared [any]; [AnyParams] below takes [search] as
    any value, the one field on which a method is called. *)
Record Params := {
  p_supplier : option string;
  p_status : option string;
  p_dateFrom : option string;
  p_dateTo : option string;
  p_search : option string
}.

(** [params] with the [search] field removed. *)
Definition without_search (params : Params) : Params :=
  {| p_supplier := p_supplier params;
     p_status := p_status params;
     p_dateFrom := p_dateFrom params;
     p_dateTo := p_dateTo params;
     p_search := None |}.

Inductive Clause : Type :=
| EqCustomerId (v : string)     (* eq(quotations.customerId, v) *)
| EqStatus (v : string)         (* eq(quotations.status, v) *)
| GteValidUntil (v : string)    (* gte(quotations.validUntil, v) *)
| LteValidUntil (v : string).   (* lte(quotations.validUntil, v) *)

(** [params.search && params.search.trim() !== ""], for a [search] that
    is a string or absent; [AnyParams.search_guard] has the other
    values. *)
Definition search_given (params : Params) : bool :=
  (truthy (p_search params)
   && match p_search params with
      | Some s => negb (String.eqb (trim s) "")
      | None => false
      end)%bool.

(** The filter-building prologue of [list], one [let] per [if]. *)
Definition whereClauses (params : Params) : list Clause :=
  let wc := [] in
  let wc :=
    match p_supplier params with
    | Some v =>
        if (truthy (Some v) && strict_ne (Some v) "" && strict_ne (Some v) "all")%bool
        then wc ++ [EqCustomerId v] else wc
    | None => wc
    end in
  let wc :=
    match p_status params with
    | Some v =>
        if (truthy (Some v) && strict_ne (Some v) "" && strict_ne (Some v) "all")%bool
        then wc ++ [EqStatus v] else wc
    | None => wc
    end in
  let wc :=
    match p_dateFrom params with
    | Some v => if truthy (Some v) then wc ++ [GteValidUntil v] else wc
    | None => wc
    end in
  let wc :=
    match p_dateTo params with
    | Some v => if truthy (Some v) then wc ++ [LteValidUntil v] else wc
    | None => wc
    end in
  (* the two blocks on [params.search]: their bodies are comments *)
  let wc := if search_given params then wc else wc in
  let wc := if search_given params then wc else wc in
  wc.

Section Dates.
(** The store's order on the values of the date column [validUntil]:
    [date_le a b] when [a] is not after [b]. *)
Variable date_le : string -> string -> bool.

Definition clause_holds (c : Clause) (q : Quotation) : bool :=
  match c with
  | EqCustomerId v => sql_eq (q_customerId q) v
  | EqStatus v => sql_eq (q_status q) v
  | GteValidUntil v =>
      match q_validUntil q with
      | Some d => date_le v d
      | None => false
      end
  | LteValidUntil v =>
      match q_validUntil q with
      | Some d => date_le d v
      | None => false
      end
  end.

(** [whereClauses.length > 0 ? query.where(and(...whereClauses)) : query],
    for a query whose rows carry their quotation under [quot]. *)
Definition run_where {Row : Type} (quot : Row -> Quotation)
    (wc : list Clause) (rows : list Row) : list Row :=
  if (0 <? List.length wc)%nat
  then filter (fun row => forallb (fun c => clause_holds c (quot row)) wc) rows
  else rows.
End Dates.

(** [rows.leftJoin(table, on)]: every row paired with each matching row
    of [table], or once with [null] when none matches.  The rows come in
    the order of [rows] and [table], one of the orders the store may
    choose. *)
Definition leftJoin {A B : Type} (on : A -> B -> bool)
    (rows : list A) (table : list B) : list (A * option B) :=
  flat_map
    (fun a =>
       match filter (on a) table with
       | [] => [(a, None)]
       | bs => map (fun b => (a, Some b)) bs
       end)
    rows.

(** The inline [supplier] and [customer] objects of a result row. *)
Record Party := {
  id : option string;
  name : option string;
  email : option string;
  phone : option string;
  address : option string;
  customerType : option string
}.

(** A result row: the quotation's own fields, then the four added ones. *)
Record Row := {
  quotation : Quotation;
  supplier : option Party;
  supplierName : option string;
  customer : option Party;
  __customerEmbedded : bool
}.

(** The object built from a joined [customers] row, for either role. *)
Definition embed (c : Customer) : Party :=
  {| id := Some (c_id c);
     name := js_or (js_or (js_or (c_name c) (c_customerName c)) (c_companyName c))
                   (c_fullName c);
     email := c_email c;
     phone := c_phone c;
     address := js_or (c_address c) (c_billingAddress c);
     customerType := c_customerType c |}.

End Listing.

(** ** Variant A: the supplier is derived from the notes *)

Module VersionA.
Import Schema Js Listing.

(** The predicate handed to [allSuppliers.find]. *)
Definition fuzzy (supplierName : string) (s : Supplier) : bool :=
  (match s_name s with
   | Some n => includes (toLowerCase n) (toLowerCase supplierName)
   | None => false
   end
   || includes (toLowerCase supplierName)
        (match js_or (option_map toLowerCase (s_name s)) (Some "") with
         | Some n => n
         | None => ""
         end))%bool.

(** The supplier part of the [map] callback: the pair of [supplier] and
    [supplierName] it leaves in its two [let] variables.  [split] never
    returns an empty array, so [supplierNames[0]] is a string and the
    default of [hd] is not used. *)
Definition resolve (allSuppliers : list Supplier) (notes : option string)
  : option Party * option string :=
  let supplier := None in
  let supplierName := Some "Unknown Supplier" in
  if truthy notes then
    match notes with
    | Some text =>
        match Regex.match_suppliers text with
        | Some group1 =>
            let supplierNames := map trim (split "," group1) in
            let extracted := hd "" supplierNames in
            match find (fuzzy extracted) allSuppliers with
            | Some matchingSupplier =>
                (Some {| id := Some (s_id matchingSupplier);
                         name := s_name matchingSupplier;
                         email := s_email matchingSupplier;
                         phone := s_phone matchingSupplier;
                         address := s_address matchingSupplier;
                         customerType := Some "Supplier" |},
                 s_name matchingSupplier)
            | None =>
                (Some {| id := None;
                         name := Some extracted;
                         email := None;
                         phone := None;
                         address := None;
                         customerType := Some "Supplier" |},
                 Some extracted)
            end
        | None => (supplier, supplierName)
        end
    | None => (supplier, supplierName)
    end
  else (supplier, supplierName).

Definition process (allSuppliers : list Supplier)
    (row : Quotation * option Customer) : Row :=
  let customer := option_map embed (snd row) in
  let '(supplier, supplierName) := resolve allSuppliers (q_notes (fst row)) in
  {| quotation := fst row;
     supplier := supplier;
     supplierName := supplierName;
     customer := customer;
     __customerEmbedded := true |}.

Section Dates.
Variable date_le : string -> string -> bool.

(** [list(params)] of the first file.  The two selects only read; a
    select that the store fails makes [list] throw, and then there are no
    rows to speak of, so the reads are total here. *)
Definition list (params : Params) (db : DB) : list Row :=
  let whereClauses := whereClauses params in
  let query :=
    leftJoin (fun q c => sql_eq (q_customerId q) (c_id c))
             (quotations db) (customers db) in
  let results := run_where date_le fst whereClauses query in
  let allSuppliers := suppliers db in
  map (process allSuppliers) results.
End Dates.

End VersionA.

(** ** Variant B: the quotation's customer is the supplier *)

Module VersionB.
Import Schema Js Listing.

Definition JoinedRow : Type :=
  ((Quotation * option Customer) * option SalesOrder) * option Customer.

Definition row_quotation (row : JoinedRow) : Quotation := fst (fst (fst row)).
Definition row_supplier (row : JoinedRow) : option Customer := snd (fst (fst row)).
Definition row_customer (row : JoinedRow) : option Customer := snd row.

Definition process (row : JoinedRow) : Row :=
  let supplier := option_map embed (row_supplier row) in
  let customer := option_map embed (row_customer row) in
  {| quotation := row_quotation row;
     supplier := supplier;
     supplierName :=
       js_or (match supplier with Some p => name p | None => None end)
             (Some "Unknown Supplier");
     customer := customer;
     __customerEmbedded := true |}.

Section Dates.
Variable date_le : string -> string -> bool.

(** [list(params)] of the second file. *)
Definition list (params : Params) (db : DB) : list Row :=
  let whereClauses := whereClauses params in
  let withSupplier :=
    leftJoin (fun q s => sql_eq (q_customerId q) (c_id s))
             (quotations db) (customers db) in
  let withOrder :=
    leftJoin (fun (r : Quotation * option Customer) so =>
                sql_eq (so_quotationId so) (q_id (fst r)))
             withSupplier (salesOrders db) in
  let query : list JoinedRow :=
    leftJoin (fun (r : (Quotation * option Customer) * option SalesOrder) c =>
                match snd r with
                | Some so => sql_eq (so_customerId so) (c_id c)
                | None => false
                end)
             withOrder (customers db) in
  let results := run_where date_le row_quotation whereClauses query in
  map process results.
End Dates.

End VersionB.

(** ** [list] on a [params] whose [search] is any value *)

Module AnyParams.
Import Schema Store Js Listing.

(** What [params.search] may be, [params] being of type [any]: one of
    the primitive values, or an array or object, which has no [trim] of
    its own.  A number is given by its integer value, of which only being
    zero is used. *)
Inductive Value : Type :=
| Undefined
| Null
| Boolean (b : bool)
| Number (n : Z)
| NaN
| Str (s : string)
| Object.

(** Truthiness of a value in a condition. *)
Definition truthy_value (v : Value) : bool :=
  match v with
  | Undefined | Null | NaN => false
  | Boolean b => b
  | Number n => negb (Z.eqb n 0)
  | Str s => truthy (Some s)
  | Object => true
  end.

(** Whether [v.trim] is a function: only strings have the method. *)
Definition has_trim (v : Value) : bool :=
  match v with
  | Str _ => true
  | _ => false
  end.

Record Any := {
  a_supplier : option string;
  a_status : option string;
  a_dateFrom : option string;
  a_dateTo : option string;
  a_search : Value
}.

(** [params.search && params.search.trim() !== ""]: a falsy [search]
    stops at [&&]; on a truthy one [trim] is called, which throws a
    [TypeError] where the method is missing. *)
Definition search_guard (v : Value) : result bool :=
  if truthy_value v then
    match v with
    | Str s => Ok (negb (String.eqb (trim s) ""))
    | _ => Err "TypeError: params.search.trim is not a function"
    end
  else Ok false.

(** The parameters as [Params] has them, once the guards on [search]
    have been passed. *)
Definition typed (params : Any) : Params :=
  {| p_supplier := a_supplier params;
     p_status := a_status params;
     p_dateFrom := a_dateFrom params;
     p_dateTo := a_dateTo params;
     p_search := match a_search params with
                 | Str s => Some s
                 | _ => None
                 end |}.

(** [params] with the [search] field removed. *)
Definition without_search (params : Any) : Any :=
  {| a_supplier := a_supplier params;
     a_status := a_status params;
     a_dateFrom := a_dateFrom params;
     a_dateTo := a_dateTo params;
     a_search := Undefined |}.

(** [list(params)] of either file, [rows] being the rest of its body: the
    two guards on [search] run, in the prologue, before any query, and an
    exception of theirs leaves [list]. *)
Definition list (rows : Params -> DB -> Datatypes.list Row)
    (params : Any) (db : DB) : result (Datatypes.list Row) :=
  match search_guard (a_search params) with
  | Err e => Err e
  | Ok _ =>
      match search_guard (a_search params) with
      | Err e => Err e
      | Ok _ => Ok (rows (typed params) db)
      end
  end.

(** The values of [search] on which the guards return. *)
Definition search_passes (v : Value) : bool :=
  (negb (truthy_value v) || has_trim v)%bool.

End AnyParams.

(** ** [GET /api/customers] *)

Module CustomerRoutes.
Import Js Store.

(** The query string of the request, [req.query], each parameter a
    string or absent as the handler's casts declare. *)
Record Query := {
  qp_limit : option string;
  qp_offset : option string;
  qp_customerType : option string;
  qp_classification : option string;
  qp_isActive : option string;
  qp_search : option string;
  qp_name : option string;
  qp_email : option string
}.

(** *** [parseInt] with no radix argument

    A number is the integer it denotes; [None] is [NaN].  A JavaScript
    number is a double: it holds such an integer, and divides, floors and
    ceils it, exactly as long as the magnitudes stay within 2^53 - 1.
    Beyond that the double is a rounded value or [Infinity], which these
    definitions do not follow; the properties that depend on the values
    are stated within that bound. *)

Definition digit_value (radix : Z) (c : ascii) : option Z :=
  let n := code c in
  let v :=
    if in_range 48 57 c then Some (Z.of_nat (n - 48))
    else if in_range 97 122 c then Some (Z.of_nat (n - 87))
    else if in_range 65 90 c then Some (Z.of_nat (n - 55))
    else None in
  match v with
  | Some d => if (d <? radix)%Z then Some d else None
  | None => None
  end.

(** The digits at the front of [s], folded into [acc]; [seen] records
    whether there was at least one. *)
Fixpoint digits (radix : Z) (s : string) (acc : Z) (seen : bool) : option Z :=
  match s with
  | EmptyString => if seen then Some acc else None
  | String c s' =>
      match digit_value radix c with
      | Some d => digits radix s' (acc * radix + d)%Z true
      | None => if seen then Some acc else None
      end
  end.

Definition strip_sign (s : string) : Z * string :=
  match s with
  | String "-" s' => ((-1)%Z, s')
  | String "+" s' => (1%Z, s')
  | _ => (1%Z, s)
  end.

Definition strip_radix (s : string) : Z * string :=
  match s with
  | String "0" (String "x" s') => (16%Z, s')
  | String "0" (String "X" s') => (16%Z, s')
  | _ => (10%Z, s)
  end.

Definition parseInt_string (s : string) : option Z :=
  let '(sign, s1) := strip_sign (trimStart s) in
  let '(radix, s2) := strip_radix s1 in
  option_map (Z.mul sign) (digits radix s2 0%Z false).

(** [parseInt(v)]: an absent parameter is first turned into the text
    [undefined]. *)
Definition parseInt (v : option string) : option Z :=
  match v with
  | Some s => parseInt_string s
  | None => parseInt_string "undefined"
  end.

(** [n || d] for a number [n]: [NaN] and zero are falsy. *)
Definition num_or (n : option Z) (d : Z) : Z :=
  match n with
  | Some z => if (z =? 0)%Z then d else z
  | None => d
  end.

(** [Math.floor(a / b)] and [Math.ceil(a / b)], the quotient taken in
    the rationals. *)
Definition floor_div (a b : Z) : Z :=
  Qround.Qfloor (QArith_base.Qdiv (QArith_base.inject_Z a) (QArith_base.inject_Z b)).

Definition ceil_div (a b : Z) : Z :=
  Qround.Qceiling (QArith_base.Qdiv (QArith_base.inject_Z a) (QArith_base.inject_Z b)).

(** *** The filters object *)

Definition Filters : Type := list (string * string).

(** The object literal, then the loop that deletes the keys whose value
    is [undefined]. *)
Definition raw_filters (q : Query) : list (string * option string) :=
  [ ("customerType", qp_customerType q);
    ("classification", qp_classification q);
    ("isActive", qp_isActive q);
    ("search", qp_search q);
    ("name", qp_name q);
    ("email", qp_email q) ].

Fixpoint drop_undefined (kvs : list (string * option string)) : Filters :=
  match kvs with
  | [] => []
  | (k, Some v) :: rest => (k, v) :: drop_undefined rest
  | (_, None) :: rest => drop_undefined rest
  end.

(** [filters.key] *)
Fixpoint get (key : string) (filters : Filters) : option string :=
  match filters with
  | [] => None
  | (k, v) :: rest => if String.eqb k key then Some v else get key rest
  end.

(** *** The storage the handler calls

    [storage] is imported from [../storage]; its four methods are taken
    as parameters.  Each either returns or throws. *)

Record Stats := { totalCustomers : Z }.

Class Storage (Customer : Type) := {
  searchCustomers :
    option string -> option string -> Z -> Z -> result (list Customer);
  getCustomerStats : result Stats;
  getCustomers : Z -> Z -> Filters -> result (list Customer);
  getCustomersCount : Filters -> result Z
}.

(** The calls a handler run makes on the storage, in order. *)
Inductive Call : Type :=
| CallSearchCustomers (name email : option string) (limit offset : Z)
| CallGetCustomerStats
| CallGetCustomers (limit offset : Z) (filters : Filters)
| CallGetCustomersCount (filters : Filters).

(** A computation that logs its storage calls and may throw. *)
Definition H (A : Type) : Type := result A * list Call.

Definition hret {A} (a : A) : H A := (Ok a, []).

Definition hbind {A B} (m : H A) (k : A -> H B) : H B :=
  match m with
  | (Ok a, log) => let '(r, log') := k a in (r, log ++ log')
  | (Err e, log) => (Err e, log)
  end.

(** An awaited storage call. *)
Definition call {A} (c : Call) (r : result A) : H A := (r, [c]).

Record Pagination := {
  page : Z;
  limit : Z;
  total : Z;
  pages : Z
}.

Inductive Response (Customer : Type) : Type :=
| Json200 (customers : list Customer) (pagination : Pagination)
| Json500 (message : string).
Arguments Json200 {Customer} customers pagination.
Arguments Json500 {Customer} message.

Section Handler.
Context {Customer : Type} {storage : Storage Customer}.

(** The body of the [try] block. *)
Definition list_customers_try (q : Query) : H (list Customer * Pagination) :=
  let limit := num_or (parseInt (qp_limit q)) 50 in
  let offset := num_or (parseInt (qp_offset q)) 0 in
  let page := (floor_div offset limit + 1)%Z in
  let filters := drop_undefined (raw_filters q) in
  hbind
    (if (truthy (get "name" filters) || truthy (get "email" filters))%bool
     then
       hbind (call (CallSearchCustomers (get "name" filters) (get "email" filters)
                                        limit offset)
                   (searchCustomers (get "name" filters) (get "email" filters)
                                    limit offset))
         (fun customers =>
       hbind (call CallGetCustomerStats getCustomerStats)
         (fun stats =>
       hret (customers, totalCustomers stats)))
     else
       hbind (call (CallGetCustomers limit offset filters)
                   (getCustomers limit offset filters))
         (fun customers =>
       hbind (call (CallGetCustomersCount filters) (getCustomersCount filters))
         (fun totalCount =>
       hret (customers, totalCount))))
    (fun '(customers, totalCount) =>
       let pagination :=
         {| page := page;
            limit := limit;
            total := totalCount;
            pages := ceil_div totalCount limit |} in
       hret (customers, pagination)).

(** The handler: the response it sends and the storage calls it made. *)
Definition list_customers (q : Query) : Response Customer * list Call :=
  match list_customers_try q with
  | (Ok (customers, pagination), log) => (Json200 customers pagination, log)
  | (Err _, log) => (Json500 "Failed to fetch customers", log)
  end.
End Handler.

End CustomerRoutes.

(** ** Sample data *)

Module Examples.
Import Schema Listing.

Definition no_params : Params :=
  {| p_supplier := None; p_status := None; p_dateFrom := None;
     p_dateTo := None; p_search := None |}.

Definition quote_acme : Quotation :=
  {| q_id := "q1"; q_quoteNumber := Some "SQ-0001"; q_customerId := Some "c1";
     q_status := Some "Draft"; q_validUntil := Some "2025-06-30";
     q_notes := Some "Suppliers: Acme Corp, Beta Inc" |}.

Definition item_acme : QuotationItem :=
  {| qi_id := "i1"; qi_quotationId := Some "q1"; qi_description := Some "bolts" |}.

Definition cust (name : option string) : Customer :=
  {| c_id := "c1"; c_name := name; c_customerName := None;
     c_companyName := None; c_fullName := None; c_email := None;
     c_phone := None; c_address := None; c_billingAddress := None;
     c_customerType := Some "Corporate" |}.

Definition sup (id : string) (name : option string) : Supplier :=
  {| s_id := id; s_name := name; s_email := None; s_phone := None;
     s_address := None |}.

Definition sup_acme_ltd : Supplier := sup "s1" (Some "ACME CORP LTD").
Definition sup_acme : Supplier := sup "s0" (Some "Acme").
Definition sup_zeta : Supplier := sup "s9" (Some "Zeta Works").
Definition sup_nameless : Supplier := sup "sn" None.

(** One quotation, its customer, and the given supplier table. *)
Definition db_with (c : Customer) (sups : list Supplier) : DB :=
  {| quotations := [quote_acme];
     quotationItems := [item_acme];
     customers := [c];
     suppliers := sups;
     salesOrders := [];
     customerAcceptances := [];
     purchaseOrders := [] |}.

(** A storage with three customers on record, one of which the general
    query returns. *)
#[export] Instance sample_storage : CustomerRoutes.Storage string := {
  CustomerRoutes.searchCustomers := fun _ _ _ _ => Store.Ok ["Initech"; "Globex"];
  CustomerRoutes.getCustomerStats :=
    Store.Ok {| CustomerRoutes.totalCustomers := 3 |};
  CustomerRoutes.getCustomers := fun _ _ _ => Store.Ok ["Globex"];
  CustomerRoutes.getCustomersCount := fun _ => Store.Ok 1%Z
}.

Definition query (limit offset name email : option string) : CustomerRoutes.Query :=
  {| CustomerRoutes.qp_limit := limit;
     CustomerRoutes.qp_offset := offset;
     CustomerRoutes.qp_customerType := None;
     CustomerRoutes.qp_classification := None;
     CustomerRoutes.qp_isActive := None;
     CustomerRoutes.qp_search := None;
     CustomerRoutes.qp_name := name;
     CustomerRoutes.qp_email := email |}.

End Examples.

(** ** The other operations of [SupplierQuoteStorage] *)

Module QuoteCrud.
Import Schema Store Listing.

(** The row [getById] selects: the quotation's columns and, under
    [supplierName], the [name] column of the joined customer. *)
Record QuoteView := {
  v_quotation : Quotation;
  v_supplierName : option string
}.

(** [getById(id)]: join, [where], projection, [limit(1)], then
    [result[0]], which is [undefined] on an empty result. *)
Definition getById (db : DB) (id : string) : option QuoteView :=
  let result :=
    firstn 1
      (map (fun row : Quotation * option Customer =>
              {| v_quotation := fst row;
                 v_supplierName :=
                   match snd row with
                   | Some c => c_name c
                   | None => None
                   end |})
           (filter (fun row : Quotation * option Customer =>
                      String.eqb (q_id (fst row)) id)
                   (leftJoin (fun q c => sql_eq (q_customerId q) (c_id c))
                             (quotations db) (customers db)))) in
  nth_error result 0.

(** [getItems(quoteId)] *)
Definition getItems (db : DB) (quoteId : string) : list QuotationItem :=
  filter (fun it => sql_eq (qi_quotationId it) quoteId) (quotationItems db).

(** An awaited select.  Like a write it is one statement of the schedule:
    rejected, it throws; accepted, it sees the database.  Either way the
    database stays as it is. *)
Definition read {A : Type} (f : DB -> A) : M A :=
  fun w =>
    match w_faults w with
    | true :: fs => (Err "query rejected", {| w_db := w_db w; w_faults := fs |})
    | false :: fs => (Ok (f (w_db w)), {| w_db := w_db w; w_faults := fs |})
    | [] => (Ok (f (w_db w)), {| w_db := w_db w; w_faults := [] |})
    end.

(** [for (const x of xs) { await body(x) }] *)
Fixpoint for_each {A : Type} (xs : list A) (body : A -> M unit) : M unit :=
  match xs with
  | [] => ret tt
  | x :: rest => body x ;;; for_each rest body
  end.

(** The argument of [create].  [n_row] is the quotation row as the store
    completes it (its [id] is the one given, or the one the column default
    assigns); [n_items] is [data.items] when that is an array, each item
    likewise with the [id] its row gets. *)
Record NewQuote := {
  n_row : Quotation;
  n_items : option (list QuotationItem)
}.

Definition insert_quotation (row : Quotation) (db : DB) : DB :=
  {| quotations := quotations db ++ [row];
     quotationItems := quotationItems db;
     customers := customers db;
     suppliers := suppliers db;
     salesOrders := salesOrders db;
     customerAcceptances := customerAcceptances db;
     purchaseOrders := purchaseOrders db |}.

Definition insert_item (row : QuotationItem) (db : DB) : DB :=
  {| quotations := quotations db;
     quotationItems := quotationItems db ++ [row];
     customers := customers db;
     suppliers := suppliers db;
     salesOrders := salesOrders db;
     customerAcceptances := customerAcceptances db;
     purchaseOrders := purchaseOrders db |}.

(** The object spread that overrides the item's parent with [quote.id]. *)
Definition tag (quoteId : string) (item : QuotationItem) : QuotationItem :=
  {| qi_id := qi_id item;
     qi_quotationId := Some quoteId;
     qi_description := qi_description item |}.

(** [create(data)]: no transaction surrounds the inserts. *)
Definition create (data : NewQuote) : M (option QuoteView) :=
  quote <- (stmt (insert_quotation (n_row data)) ;;; ret (n_row data)) ;;
  match n_items data with
  | Some items =>
      for_each items (fun item => stmt (insert_item (tag (q_id quote) item)))
  | None => ret tt
  end ;;;
  read (fun db => getById db (q_id quote)).

(** The argument [updates] of [update]: for each named column, absent or
    the value to set (which may be null). *)
Record Updates := {
  u_id : option string;
  u_quoteNumber : option (option string);
  u_customerId : option (option string);
  u_status : option (option string);
  u_validUntil : option (option string);
  u_notes : option (option string)
}.

Definition set_column {A : Type} (u : option A) (old : A) : A :=
  match u with
  | Some v => v
  | None => old
  end.

Definition apply_updates (u : Updates) (q : Quotation) : Quotation :=
  {| q_id := set_column (u_id u) (q_id q);
     q_quoteNumber := set_column (u_quoteNumber u) (q_quoteNumber q);
     q_customerId := set_column (u_customerId u) (q_customerId q);
     q_status := set_column (u_status u) (q_status q);
     q_validUntil := set_column (u_validUntil u) (q_validUntil q);
     q_notes := set_column (u_notes u) (q_notes q) |}.

(** [db.update(quotations).set(updateData).where(eq(quotations.id, id))].
    The [updatedAt] that [updateData] adds goes to a column outside those
    named in [Quotation]. *)
Definition update_rows (id : string) (u : Updates) (db : DB) : DB :=
  {| quotations :=
       map (fun q => if String.eqb (q_id q) id then apply_updates u q else q)
           (quotations db);
     quotationItems := quotationItems db;
     customers := customers db;
     suppliers := suppliers db;
     salesOrders := salesOrders db;
     customerAcceptances := customerAcceptances db;
     purchaseOrders := purchaseOrders db |}.

(** [try { ... } catch (error) { throw new Error(wrap(error.message)) }],
    for the errors of the store, which are [Error] objects. *)
Definition try_rethrow {A : Type} (m : M A) (wrap : string -> string) : M A :=
  fun w =>
    match m w with
    | (Ok a, w') => (Ok a, w')
    | (Err e, w') => (Err (wrap e), w')
    end.

(** [update(id, updates)] *)
Definition update (id : string) (updates : Updates) : M (option QuoteView) :=
  try_rethrow
    (stmt (update_rows id updates) ;;; read (fun db => getById db id))
    (fun message => String.append "Failed to update supplier quote: " message).

(** No two rows of [customers] share an [id]: the primary key. *)
Definition customer_ids_unique (db : DB) : Prop :=
  NoDup (map c_id (customers db)).

End QuoteCrud.

(** ** The other handlers of the customer routes *)

Module CustomerHandlers.
Import Js.

(** What a callee may throw: a validation error with its issue list, an
    [Error] with its message, or any other value. *)
Inductive Thrown : Type :=
| ZodError (errors : list string)
| ErrorObject (message : string)
| OtherValue.

Inductive outcome (A : Type) : Type :=
| Returned (a : A)
| Threw (t : Thrown).
Arguments Returned {A} a.
Arguments Threw {A} t.

(** The collaborators: [storage] of [../storage] and the two parsers
    derived from [insertCustomerSchema] of [@shared/schema], taken as
    parameters.  [Customer] is what the storage returns, [Body] the request
    body, [Data] and [Partial] the parsed payloads. *)
Class Env (Customer Stats Body Data Partial : Type) := {
  getCustomerStats : outcome Stats;
  getCustomer : string -> outcome (option Customer);
  getCustomerDetails : string -> outcome (option Customer);
  createCustomer : Data -> outcome Customer;
  updateCustomer : string -> Partial -> outcome Customer;
  parse : Body -> outcome Data;
  parse_partial : Body -> outcome Partial
}.

Inductive Call (Data Partial : Type) : Type :=
| CallGetCustomerStats
| CallGetCustomer (id : string)
| CallGetCustomerDetails (id : string)
| CallCreateCustomer (data : Data)
| CallUpdateCustomer (id : string) (data : Partial).
Arguments CallGetCustomerStats {Data Partial}.
Arguments CallGetCustomer {Data Partial} id.
Arguments CallGetCustomerDetails {Data Partial} id.
Arguments CallCreateCustomer {Data Partial} data.
Arguments CallUpdateCustomer {Data Partial} id data.

(** A response: the status and the JSON body. *)
Inductive Response (Customer Stats : Type) : Type :=
| Json200 (customer : Customer)
| Json200Stats (stats : Stats)
| Json201 (customer : Customer)
| Json400 (message : string) (errors : list string)
| Json404 (message : string)
| Json409 (message : string) (error : string)
| Json500 (message : string).
Arguments Json200 {Customer Stats} customer.
Arguments Json200Stats {Customer Stats} stats.
Arguments Json201 {Customer Stats} customer.
Arguments Json400 {Customer Stats} message errors.
Arguments Json404 {Customer Stats} message.
Arguments Json409 {Customer Stats} message error.
Arguments Json500 {Customer Stats} message.

Definition status {Customer Stats : Type} (r : Response Customer Stats) : nat :=
  match r with
  | Json200 _ | Json200Stats _ => 200
  | Json201 _ => 201
  | Json400 _ _ => 400
  | Json404 _ => 404
  | Json409 _ _ => 409
  | Json500 _ => 500
  end.

Section Handlers.
Context {Customer Stats Body Data Partial : Type}
        {env : Env Customer Stats Body Data Partial}.

(** The [catch] block shared by [POST] and [PUT], up to the message of the
    last resort. *)
Definition on_write_error (t : Thrown) (fallback : string)
  : Response Customer Stats :=
  match t with
  | ZodError errors => Json400 "Invalid customer data" errors
  | ErrorObject message =>
      if includes message "already exists"
      then Json409 "Duplicate customer" message
      else Json500 fallback
  | OtherValue => Json500 fallback
  end.

(** [GET /api/customers/stats] *)
Definition get_stats : Response Customer Stats * list (Call Data Partial) :=
  match getCustomerStats with
  | Returned stats => (Json200Stats stats, [CallGetCustomerStats])
  | Threw _ => (Json500 "Failed to fetch customer statistics", [CallGetCustomerStats])
  end.

(** [GET /api/customers/:id] *)
Definition get_customer (id : string)
  : Response Customer Stats * list (Call Data Partial) :=
  match getCustomer id with
  | Returned (Some customer) => (Json200 customer, [CallGetCustomer id])
  | Returned None => (Json404 "Customer not found", [CallGetCustomer id])
  | Threw _ => (Json500 "Failed to fetch customer", [CallGetCustomer id])
  end.

(** [GET /api/customers/:id/details] *)
Definition get_customer_details (id : string)
  : Response Customer Stats * list (Call Data Partial) :=
  match getCustomerDetails id with
  | Returned (Some details) => (Json200 details, [CallGetCustomerDetails id])
  | Returned None => (Json404 "Customer not found", [CallGetCustomerDetails id])
  | Threw _ => (Json500 "Failed to fetch customer details", [CallGetCustomerDetails id])
  end.

(** [POST /api/customers] *)
Definition post_customer (body : Body)
  : Response Customer Stats * list (Call Data Partial) :=
  match parse body with
  | Returned customerData =>
      match createCustomer customerData with
      | Returned customer => (Json201 customer, [CallCreateCustomer customerData])
      | Threw t =>
          (on_write_error t "Failed to create customer",
           [CallCreateCustomer customerData])
      end
  | Threw t => (on_write_error t "Failed to create customer", [])
  end.

(** [PUT /api/customers/:id] *)
Definition put_customer (id : string) (body : Body)
  : Response Customer Stats * list (Call Data Partial) :=
  match parse_partial body with
  | Returned customerData =>
      match updateCustomer id customerData with
      | Returned customer => (Json200 customer, [CallUpdateCustomer id customerData])
      | Threw t =>
          (on_write_error t "Failed to update customer",
           [CallUpdateCustomer id customerData])
      end
  | Threw t => (on_write_error t "Failed to update customer", [])
  end.
End Handlers.

End CustomerHandlers.

(** ** Vocabulary for stating the properties of the operations above *)

Module Describe.
Import Schema Js Listing QuoteCrud.

(** The [name] column of the first customer whose [id] is the quotation's
    [customerId]; null when there is none. *)
Definition joined_name (db : DB) (q : Quotation) : option string :=
  match find (fun c => sql_eq (q_customerId q) (c_id c)) (customers db) with
  | Some c => c_name c
  | None => None
  end.

Definition view_of (db : DB) (q : Quotation) : QuoteView :=
  {| v_quotation := q; v_supplierName := joined_name db q |}.

(** [db] with quotations and line items appended, the rest as it was. *)
Definition added (db : DB) (rows : list Quotation) (items : list QuotationItem) : DB :=
  {| quotations := quotations db ++ rows;
     quotationItems := quotationItems db ++ items;
     customers := customers db;
     suppliers := suppliers db;
     salesOrders := salesOrders db;
     customerAcceptances := customerAcceptances db;
     purchaseOrders := purchaseOrders db |}.

(** The items of a [create] argument, and the rows inserted for them. *)
Definition items_of (data : NewQuote) : list QuotationItem :=
  match n_items data with
  | Some items => items
  | None => []
  end.

Definition tagged_items (data : NewQuote) : list QuotationItem :=
  map (tag (q_id (n_row data))) (items_of data).

(** A filter value that selects: present, not empty and not [all]. *)
Definition selects (v : option string) (x : string) : Prop :=
  v = Some x /\ x <> "" /\ x <> "all".

(** What the parameters of [list] ask of a quotation: the given customer
    and status when these select, and a [validUntil] that is present and
    within the given bounds when these are not empty. *)
Definition wanted (date_le : string -> string -> bool)
    (params : Params) (q : Quotation) : Prop :=
  (forall x, selects (p_supplier params) x -> q_customerId q = Some x)
  /\ (forall x, selects (p_status params) x -> q_status q = Some x)
  /\ (forall x, p_dateFrom params = Some x -> x <> "" ->
        exists d, q_validUntil q = Some d /\ date_le x d = true)
  /\ (forall x, p_dateTo params = Some x -> x <> "" ->
        exists d, q_validUntil q = Some d /\ date_le d x = true).

(** A filter value that does not select. *)
Definition unselective (v : option string) : Prop :=
  v = None \/ v = Some "" \/ v = Some "all".

(** What a [POST] met on its way: the value thrown by the parser or, the
    parser having returned, by the storage; nothing when both returned. *)
Definition post_thrown {Customer Stats Body Data Partial : Type}
    {env : CustomerHandlers.Env Customer Stats Body Data Partial}
    (body : Body) : option CustomerHandlers.Thrown :=
  match CustomerHandlers.parse body with
  | CustomerHandlers.Threw t => Some t
  | CustomerHandlers.Returned data =>
      match CustomerHandlers.createCustomer data with
      | CustomerHandlers.Threw t => Some t
      | CustomerHandlers.Returned _ => None
      end
  end.

(** The same for a [PUT]. *)
Definition put_thrown {Customer Stats Body Data Partial : Type}
    {env : CustomerHandlers.Env Customer Stats Body Data Partial}
    (id : string) (body : Body) : option CustomerHandlers.Thrown :=
  match CustomerHandlers.parse_partial body with
  | CustomerHandlers.Threw t => Some t
  | CustomerHandlers.Returned data =>
      match CustomerHandlers.updateCustomer id data with
      | CustomerHandlers.Threw t => Some t
      | CustomerHandlers.Returned _ => None
      end
  end.

(** An integer that a JavaScript number holds exactly and on which its
    arithmetic is exact: of magnitude at most 2^53 - 1. *)
Definition safe_integer (z : Z) : Prop :=
  (- 9007199254740991 <= z <= 9007199254740991)%Z.

(** The characters of a string. *)
Definition chars (s : string) : list ascii := list_ascii_of_string s.

(** Two texts that differ at most in the case of their letters, as the [i]
    flag compares them. *)
Definition same_letters (a b : list ascii) : Prop :=
  map Regex.canon a = map Regex.canon b.

(** A text that introduces a list of suppliers: [supplier: ] or
    [suppliers: ] in any letter case. *)
Definition introduces_suppliers (word : list ascii) : Prop :=
  same_letters word (chars "supplier: ")
  \/ same_letters word (chars "suppliers: ").

End Describe.

(** ** More sample data *)

Module MoreExamples.
Import Schema Listing QuoteCrud.

Definition globex : Customer := Examples.cust (Some "Globex").

Definition db_small : DB := Examples.db_with globex [Examples.sup_zeta].

Definition quote_new : Quotation :=
  {| q_id := "q7"; q_quoteNumber := Some "SQ-0007"; q_customerId := Some "c1";
     q_status := Some "Draft"; q_validUntil := None; q_notes := None |}.

Definition item (id : string) : QuotationItem :=
  {| qi_id := id; qi_quotationId := None; qi_description := Some "nuts" |}.

Definition new_quote : NewQuote :=
  {| n_row := quote_new; n_items := Some [item "i7"; item "i8"] |}.

Definition one_item : NewQuote :=
  {| n_row := quote_new; n_items := Some [item "i7"] |}.

Definition set_status (s : string) : Updates :=
  {| u_id := None; u_quoteNumber := None; u_customerId := None;
     u_status := Some (Some s); u_validUntil := None; u_notes := None |}.

Definition order (id quote customer : string) : SalesOrder :=
  {| so_id := id; so_quotationId := Some quote; so_customerId := Some customer |}.

(** The small database with one sales order on its quotation. *)
Definition db_ordered : DB :=
  {| quotations := quotations db_small;
     quotationItems := quotationItems db_small;
     customers := customers db_small;
     suppliers := suppliers db_small;
     salesOrders := [order "so1" "q1" "c1"];
     customerAcceptances := [];
     purchaseOrders := [] |}.

Definition drafts : Params :=
  {| p_supplier := Some "all"; p_status := Some "Draft"; p_dateFrom := None;
     p_dateTo := None; p_search := None |}.

(** A storage and a parser for the write handlers: the empty body fails
    validation, and [Globex] is already on record. *)
#[export] Instance sample_env
  : CustomerHandlers.Env string Z string string string := {
  CustomerHandlers.getCustomerStats := CustomerHandlers.Returned 3%Z;
  CustomerHandlers.getCustomer :=
    fun id => CustomerHandlers.Returned
                (if String.eqb id "c1" then Some "Globex" else None);
  CustomerHandlers.getCustomerDetails :=
    fun id => CustomerHandlers.Threw (CustomerHandlers.ErrorObject "connection lost");
  CustomerHandlers.createCustomer :=
    fun data =>
      if String.eqb data "Globex"
      then CustomerHandlers.Threw
             (CustomerHandlers.ErrorObject "Customer with this name already exists")
      else CustomerHandlers.Returned data;
  CustomerHandlers.updateCustomer :=
    fun id data => CustomerHandlers.Returned data;
  CustomerHandlers.parse :=
    fun body =>
      if String.eqb body ""
      then CustomerHandlers.Threw (CustomerHandlers.ZodError ["name: Required"])
      else CustomerHandlers.Returned body;
  CustomerHandlers.parse_partial := fun body => CustomerHandlers.Returned body
}.


End MoreExamples.

(** * Properties *)

(** ** Facts about lists, SQL equality and the effects *)

Module Facts.
Import Schema Store.

Lemma sql_eq_true (col : option string) (v : string) :
  sql_eq col v = true <-> col = Some v.
Proof.
  destruct col as [c|]; simpl.
  - rewrite String.eqb_eq.
    split; [intros ->; reflexivity | intros [= ->]; reflexivity].
  - split; discriminate.
Qed.

Lemma sql_eq_false (col : option string) (v : string) :
  sql_eq col v = false <-> col <> Some v.
Proof.
  rewrite <- sql_eq_true. destruct (sql_eq col v); split; congruence.
Qed.

(** A select with [limit(1)] is non-empty exactly when some row passes
    the [where]. *)
Lemma limit1_hit {A B : Type} (p : A -> bool) (f : A -> B) (t : list A) :
  (0 <? List.length (firstn 1 (map f (filter p t))))%nat = true
  <-> exists r, In r t /\ p r = true.
Proof.
  induction t as [|a t IH]; simpl.
  - split; [discriminate | intros (r & [] & _)].
  - destruct (p a) eqn:Ha; simpl.
    + split; [intros _; exists a; auto | reflexivity].
    + rewrite IH. split.
      * intros (r & Hr & Hp). exists r; auto.
      * intros (r & [<- | Hr] & Hp); [congruence | exists r; auto].
Qed.

Lemma filter_id {A : Type} (p : A -> bool) (l : list A) :
  (forall a, In a l -> p a = true) -> filter p l = l.
Proof.
  induction l as [|a l IH]; simpl; intros H; [reflexivity|].
  rewrite (H a (or_introl eq_refl)). f_equal. apply IH. auto.
Qed.

Lemma filter_twice {A : Type} (p : A -> bool) (l : list A) :
  filter p (filter p l) = filter p l.
Proof.
  apply filter_id. intros a Ha. apply filter_In in Ha. tauto.
Qed.

(** The three ways a single statement can go. *)
Lemma stmt_cases (f : DB -> DB) (w : World) :
  (exists fs, stmt f w = (Ok tt, {| w_db := f (w_db w); w_faults := fs |}))
  \/ (exists e fs, stmt f w = (Err e, {| w_db := w_db w; w_faults := fs |})).
Proof.
  unfold stmt. destruct (w_faults w) as [|[] fs]; eauto.
Qed.

(** A transaction ends either with the state its body reached, or with
    the state of entry and an error. *)
Lemma transaction_cases {A : Type} (body : M A) (w : World) :
  (exists a w1 fs, body w = (Ok a, w1)
                   /\ transaction body w = (Ok a, {| w_db := w_db w1; w_faults := fs |}))
  \/ (exists e fs, transaction body w = (Err e, {| w_db := w_db w; w_faults := fs |})).
Proof.
  unfold transaction. destruct (body w) as [[a|e] w1] eqn:Hb.
  - destruct (w_faults w1) as [|[] fs] eqn:Hf.
    + left. exists a, w1, []. split; [reflexivity|].
      destruct w1; simpl in *; subst; reflexivity.
    + right. eauto.
    + left. eauto.
  - right. eauto.
Qed.

End Facts.

(** ** The reference guard and [delete] *)

Module GuardProps.
Import Schema Store SupplierQuoteStorage Facts.

(** C1.  [hasReferences(id)] is true exactly when sales orders, customer
    acceptances or purchase orders hold a row whose quotation reference
    is [id]; when none of the three does, it is false. *)
Theorem hasReferences_iff_referenced (db : DB) (id : string) :
  (hasReferences db id = true <->
     (exists r, In r (salesOrders db) /\ so_quotationId r = Some id)
     \/ (exists r, In r (customerAcceptances db) /\ ca_quotationId r = Some id)
     \/ (exists r, In r (purchaseOrders db) /\ po_quotationId r = Some id))
  /\ ((forall r, In r (salesOrders db) -> so_quotationId r <> Some id) ->
      (forall r, In r (customerAcceptances db) -> ca_quotationId r <> Some id) ->
      (forall r, In r (purchaseOrders db) -> po_quotationId r <> Some id) ->
      hasReferences db id = false).
Proof.
  assert (Hiff :
    hasReferences db id = true <->
      (exists r, In r (salesOrders db) /\ so_quotationId r = Some id)
      \/ (exists r, In r (customerAcceptances db) /\ ca_quotationId r = Some id)
      \/ (exists r, In r (purchaseOrders db) /\ po_quotationId r = Some id)).
  { unfold hasReferences. cbv zeta.
    rewrite !orb_true_iff, !limit1_hit.
    setoid_rewrite sql_eq_true. tauto. }
  split; [exact Hiff|].
  intros Hso Hca Hpo.
  apply not_true_is_false. intros E. apply Hiff in E.
  destruct E as [(r & Hr & E) | [(r & Hr & E) | (r & Hr & E)]].
  - elim (Hso r Hr E).
  - elim (Hca r Hr E).
  - elim (Hpo r Hr E).
Qed.

Lemma hasReferences_iff_referenced_witness :
  let so := {| so_id := "so1"; so_quotationId := Some "q1"; so_customerId := None |} in
  let db := {| quotations := []; quotationItems := []; customers := [];
               suppliers := []; salesOrders := [so];
               customerAcceptances := []; purchaseOrders := [] |} in
  hasReferences db "q1" = true /\ hasReferences db "q2" = false.
Proof.
  intros so db. split.
  - apply (proj1 (hasReferences_iff_referenced db "q1")).
    left. exists so. split; [left; reflexivity | reflexivity].
  - apply (proj2 (hasReferences_iff_referenced db "q2")).
    + intros r [<- | []]. discriminate.
    + intros r [].
    + intros r [].
Defined.

End GuardProps.

(** ** [delete]: all or nothing, and idempotent *)

Module DeleteProps.
Import Schema Store SupplierQuoteStorage Facts.

Lemma both_deleted_removed (id : string) (db : DB) :
  removed id db (both_deleted id db).
Proof.
  unfold removed, both_deleted, delete_quotation, delete_items; simpl.
  split; [|split; [|tauto]].
  - intros it. rewrite filter_In, negb_true_iff, sql_eq_false. tauto.
  - intros q. rewrite filter_In, negb_true_iff, String.eqb_neq. tauto.
Qed.

(** When the callback returns, both statements have been applied. *)
Lemma delete_body_ok (id : string) (w w1 : World) (u : unit) :
  delete_body id w = (Ok u, w1) -> w_db w1 = both_deleted id (w_db w).
Proof.
  unfold delete_body, bind.
  destruct (stmt_cases (delete_items id) w) as [(fs & ->) | (e & fs & ->)];
    [|discriminate].
  match goal with |- context [stmt ?f ?w0] =>
    destruct (stmt_cases f w0) as [(fs' & ->) | (e & fs' & ->)] end;
    [|discriminate].
  intros [= <- <-]. reflexivity.
Qed.

(** Without the transaction around it the callback can stop half way: the
    line items are gone and the quotation is still there. *)
Lemma delete_body_alone_is_partial :
  let q := {| q_id := "q1"; q_quoteNumber := None; q_customerId := None;
              q_status := None; q_validUntil := None; q_notes := None |} in
  let it := {| qi_id := "i1"; qi_quotationId := Some "q1"; qi_description := None |} in
  let db := {| quotations := [q]; quotationItems := [it]; customers := [];
               suppliers := []; salesOrders := []; customerAcceptances := [];
               purchaseOrders := [] |} in
  let w := {| w_db := db; w_faults := [false; true] |} in
  quotationItems (w_db (snd (delete_body "q1" w))) = []
  /\ quotations (w_db (snd (delete_body "q1" w))) = [q]
  /\ snd (delete "q1" w) = {| w_db := db; w_faults := [] |}
  /\ fst (delete "q1" w) = Err "statement rejected".
Proof. repeat split. Qed.

(** The two ways a run of [delete] can end. *)
Lemma delete_outcome (id : string) (w : World) :
  (exists fs, delete id w
              = (Ok deleted_ack,
                 {| w_db := both_deleted id (w_db w); w_faults := fs |}))
  \/ (exists e fs, delete id w
                   = (Err e, {| w_db := w_db w; w_faults := fs |})).
Proof.
  unfold delete, bind, ret.
  destruct (transaction_cases (delete_body id) w)
    as [(a & w1 & fs & Hb & ->) | (e & fs & ->)].
  - left. exists fs. apply delete_body_ok in Hb. rewrite Hb. reflexivity.
  - right. eauto.
Qed.

(** C2.  [delete(id)] issues three steps: the delete of the line items,
    the delete of the quotation, and the commit.  When the store accepts
    all three, it returns the acknowledgment, the line items of [id] and
    the quotation [id] are both gone, and nothing else is touched.  When
    the store rejects one of them, whichever it is, [delete] throws and
    the database is the one it started from.  No run ends in between. *)
Theorem delete_all_or_nothing (id : string) (w : World) :
  (accepts 3 (w_faults w) = true ->
     fst (delete id w) = Ok deleted_ack
     /\ message deleted_ack = "Supplier quote deleted successfully"
     /\ w_db (snd (delete id w)) = delete_quotation id (delete_items id (w_db w))
     /\ removed id (w_db w) (w_db (snd (delete id w))))
  /\ (accepts 3 (w_faults w) = false ->
      (exists e, fst (delete id w) = Err e)
      /\ w_db (snd (delete id w)) = w_db w)
  /\ ((fst (delete id w) = Ok deleted_ack
       /\ removed id (w_db w) (w_db (snd (delete id w))))
      \/ ((exists e, fst (delete id w) = Err e)
          /\ w_db (snd (delete id w)) = w_db w)).
Proof.
  pose proof (both_deleted_removed id (w_db w)) as Hrem.
  unfold both_deleted in Hrem.
  unfold accepts, delete, bind, ret, transaction, delete_body, stmt.
  destruct w as [db fs]. cbn [w_db w_faults] in *.
  destruct fs as [|[] [|[] [|[] fs]]]; cbn [firstn forallb negb andb w_db w_faults fst snd].
  all: split;
    [intros H;
     first [ discriminate H
           | split; [reflexivity|split; [reflexivity|split; [reflexivity|exact Hrem]]] ]|].
  all: split;
    [intros H;
     first [ discriminate H | split; [eexists; reflexivity | reflexivity] ]|].
  all: first [ left; split; [reflexivity | exact Hrem]
             | right; split; [eexists; reflexivity | reflexivity] ].
Qed.

Lemma delete_all_or_nothing_witness :
  accepts 3 (w_faults (calm MoreExamples.db_small)) = true
  /\ fst (delete "q1" (calm MoreExamples.db_small)) = Ok deleted_ack
  /\ quotations (w_db (snd (delete "q1" (calm MoreExamples.db_small)))) = []
  /\ quotationItems (w_db (snd (delete "q1" (calm MoreExamples.db_small)))) = []
  /\ accepts 3 [false; true] = false
  /\ (exists e, fst (delete "q1" {| w_db := MoreExamples.db_small;
                                     w_faults := [false; true] |}) = Err e)
  /\ w_db (snd (delete "q1" {| w_db := MoreExamples.db_small;
                               w_faults := [false; true] |}))
     = MoreExamples.db_small.
Proof.
  destruct (proj1 (delete_all_or_nothing "q1" (calm MoreExamples.db_small)) eq_refl)
    as (Hok & _ & Hdb & _).
  destruct (proj1 (proj2 (delete_all_or_nothing "q1"
                            {| w_db := MoreExamples.db_small;
                               w_faults := [false; true] |})) eq_refl)
    as (Herr & Hsame).
  split; [reflexivity|]. split; [exact Hok|].
  split; [rewrite Hdb; reflexivity|]. split; [rewrite Hdb; reflexivity|].
  split; [reflexivity|]. split; [exact Herr | exact Hsame].
Defined.

Lemma delete_calm (id : string) (db : DB) :
  delete id (calm db) = (Ok deleted_ack, calm (both_deleted id db)).
Proof. reflexivity. Qed.

Lemma both_deleted_twice (id : string) (db : DB) :
  both_deleted id (both_deleted id db) = both_deleted id db.
Proof.
  unfold both_deleted, delete_quotation, delete_items; simpl.
  rewrite !filter_twice. reflexivity.
Qed.

Lemma both_deleted_absent (id : string) (db : DB) :
  items_have_parent db ->
  (forall q, In q (quotations db) -> q_id q <> id) ->
  both_deleted id db = db.
Proof.
  intros Hfk Habs. destruct db as [qs its cs ss sos cas pos].
  unfold both_deleted, delete_quotation, delete_items; simpl in *.
  f_equal.
  - apply filter_id. intros q Hq.
    apply negb_true_iff, String.eqb_neq. apply Habs, Hq.
  - apply filter_id. intros it Hit.
    apply negb_true_iff, sql_eq_false. intros Hp.
    destruct (Hfk it id Hit Hp) as (q & Hq & Hid).
    exact (Habs q Hq Hid).
Qed.

(** If both of two successive runs return, the second changes nothing,
    whatever the store rejected in between. *)
Lemma delete_again_same_state (id : string) (w w1 w2 : World) (a1 a2 : Ack) :
  delete id w = (Ok a1, w1) -> delete id w1 = (Ok a2, w2) ->
  a1 = a2 /\ w_db w2 = w_db w1.
Proof.
  intros H1 H2.
  destruct (delete_outcome id w) as [(fs & E1) | (e & fs & E1)];
    rewrite H1 in E1; [|discriminate].
  destruct (delete_outcome id w1) as [(fs' & E2) | (e & fs' & E2)];
    rewrite H2 in E2; [|discriminate].
  injection E1 as -> ->. injection E2 as -> ->. simpl.
  split; [reflexivity | apply both_deleted_twice].
Qed.

(** C10.  When the store rejects nothing, [delete(id)] returns the same
    acknowledgment whether or not the quotation exists; a second run
    returns it again and leaves the state of the first; and for an [id]
    that no quotation carries, in a database whose line items respect
    their foreign key, the state is left as it was. *)
Theorem delete_idempotent (id : string) (db : DB) :
  let db1 := w_db (snd (delete id (calm db))) in
  fst (delete id (calm db)) = Ok deleted_ack
  /\ message deleted_ack = "Supplier quote deleted successfully"
  /\ delete id (calm db1) = (Ok deleted_ack, calm db1)
  /\ (items_have_parent db ->
      (forall q, In q (quotations db) -> q_id q <> id) ->
      delete id (calm db) = (Ok deleted_ack, calm db)).
Proof.
  cbv zeta. rewrite !delete_calm. simpl.
  split; [reflexivity|]. split; [reflexivity|]. split.
  - rewrite both_deleted_twice. reflexivity.
  - intros Hfk Habs. rewrite both_deleted_absent by assumption. reflexivity.
Qed.

Lemma delete_idempotent_witness :
  let q := {| q_id := "q1"; q_quoteNumber := None; q_customerId := None;
              q_status := None; q_validUntil := None; q_notes := None |} in
  let it := {| qi_id := "i1"; qi_quotationId := Some "q1"; qi_description := None |} in
  let db := {| quotations := [q]; quotationItems := [it]; customers := [];
               suppliers := []; salesOrders := []; customerAcceptances := [];
               purchaseOrders := [] |} in
  items_have_parent db
  /\ (forall q', In q' (quotations db) -> q_id q' <> "q2")
  /\ delete "q2" (calm db) = (Ok deleted_ack, calm db).
Proof.
  intros q it db.
  assert (Hfk : items_have_parent db).
  { intros it' p [<- | []] [= <-]. exists q. split; [left; reflexivity | reflexivity]. }
  assert (Habs : forall q', In q' (quotations db) -> q_id q' <> "q2").
  { intros q' [<- | []]. discriminate. }
  split; [exact Hfk|]. split; [exact Habs|].
  exact (proj2 (proj2 (proj2 (delete_idempotent "q2" db))) Hfk Habs).
Defined.

End DeleteProps.

(** ** Facts about joins, filters and the notes *)

Module ListingFacts.
Import Schema Js Listing Facts.

Lemma split_cons (sep : ascii) (s : string) :
  exists h t, split sep s = h :: t.
Proof.
  induction s as [|c s (h & t & IH)]; simpl.
  - eauto.
  - destruct (Ascii.eqb c sep); [eauto|]. rewrite IH. eauto.
Qed.

Lemma leftJoin_In {A B : Type} (on : A -> B -> bool)
    (rows : list A) (table : list B) (a : A) (ob : option B) :
  In (a, ob) (leftJoin on rows table) ->
  In a rows
  /\ match ob with
     | Some b => In b table /\ on a b = true
     | None => forall b, In b table -> on a b = false
     end.
Proof.
  unfold leftJoin. rewrite in_flat_map. intros (a0 & Ha0 & Hin).
  destruct (filter (on a0) table) as [|b0 bs] eqn:F.
  - destruct Hin as [[= <- <-] | []]. split; [exact Ha0|].
    intros b Hb. destruct (on a0 b) eqn:E; [|reflexivity].
    assert (Hf : In b (filter (on a0) table)) by (apply filter_In; auto).
    rewrite F in Hf. destruct Hf.
  - apply in_map_iff in Hin. destruct Hin as (b & [= <- <-] & Hb).
    rewrite <- F in Hb. apply filter_In in Hb. tauto.
Qed.

Lemma run_where_In {Row : Type} (date_le : string -> string -> bool)
    (quot : Row -> Quotation) (wc : list Clause) (rows : list Row) (r : Row) :
  In r (run_where date_le quot wc rows) -> In r rows.
Proof.
  unfold run_where. destruct (0 <? List.length wc)%nat; [|tauto].
  intros H. apply filter_In in H. tauto.
Qed.

Lemma find_all_false {A : Type} (f : A -> bool) (l : list A) :
  (forall x, In x l -> f x = false) -> find f l = None.
Proof.
  induction l as [|a l IH]; simpl; intros H; [reflexivity|].
  rewrite (H a (or_introl eq_refl)). apply IH. auto.
Qed.

Lemma find_first {A : Type} (f : A -> bool) (pre post : list A) (x : A) :
  (forall y, In y pre -> f y = false) -> f x = true ->
  find f (pre ++ x :: post) = Some x.
Proof.
  induction pre as [|a pre IH]; simpl; intros Hpre Hx.
  - rewrite Hx. reflexivity.
  - rewrite (Hpre a (or_introl eq_refl)). apply IH; auto.
Qed.

(** The search blocks of the prologue leave the clauses as they are. *)
Lemma whereClauses_without_search (params : Params) :
  whereClauses (without_search params) = whereClauses params.
Proof.
  unfold whereClauses, without_search; simpl.
  destruct (search_given params); reflexivity.
Qed.

End ListingFacts.

(** ** The note-derived [list] *)

Module VersionAProps.
Import Schema Js Listing VersionA Facts ListingFacts.

(** Every result row comes from a quotation of the table by [process]. *)
Lemma listA_In (date_le : string -> string -> bool) (params : Params)
    (db : DB) (r : Row) :
  In r (VersionA.list date_le params db) ->
  exists q oc, In q (quotations db) /\ r = process (suppliers db) (q, oc).
Proof.
  unfold VersionA.list. cbv zeta. rewrite in_map_iff.
  intros ([q oc] & <- & Hin). apply run_where_In, leftJoin_In in Hin.
  exists q, oc. tauto.
Qed.

Lemma processA_fields (sups : Datatypes.list Supplier) (q : Quotation) (oc : option Customer) :
  quotation (process sups (q, oc)) = q
  /\ supplier (process sups (q, oc)) = fst (resolve sups (q_notes q))
  /\ supplierName (process sups (q, oc)) = snd (resolve sups (q_notes q)).
Proof.
  unfold process; simpl. destruct (resolve sups (q_notes q)); simpl. auto.
Qed.

(** What [resolve] does on the notes of the specification's example. *)
Lemma resolve_acme (sups : Datatypes.list Supplier) :
  resolve sups (Some "Suppliers: Acme Corp, Beta Inc") =
  match find (fuzzy "Acme Corp") sups with
  | Some matchingSupplier =>
      (Some {| id := Some (s_id matchingSupplier);
               name := s_name matchingSupplier;
               email := s_email matchingSupplier;
               phone := s_phone matchingSupplier;
               address := s_address matchingSupplier;
               customerType := Some "Supplier" |},
       s_name matchingSupplier)
  | None =>
      (Some {| id := None; name := Some "Acme Corp"; email := None;
               phone := None; address := None;
               customerType := Some "Supplier" |},
       Some "Acme Corp")
  end.
Proof.
  assert (E : Regex.match_suppliers "Suppliers: Acme Corp, Beta Inc"
              = Some "Acme Corp, Beta Inc") by (vm_compute; reflexivity).
  unfold resolve. rewrite E. reflexivity.
Qed.

(** C3.  In the note-derived [list], a row whose quotation has the notes
    [Suppliers: Acme Corp, Beta Inc], when no row of the supplier table
    fuzzy-matches the extracted name [Acme Corp], has [supplierName] equal
    to [Acme Corp] and a supplier object whose [id] is null. *)
Theorem note_derived_unmatched (date_le : string -> string -> bool)
    (params : Params) (db : DB) (r : Row) :
  In r (VersionA.list date_le params db) ->
  q_notes (quotation r) = Some "Suppliers: Acme Corp, Beta Inc" ->
  (forall s, In s (suppliers db) -> fuzzy "Acme Corp" s = false) ->
  supplierName r = Some "Acme Corp"
  /\ exists p, supplier r = Some p /\ id p = None /\ name p = Some "Acme Corp".
Proof.
  intros Hin Hnotes Hnone.
  apply listA_In in Hin. destruct Hin as (q & oc & _ & ->).
  destruct (processA_fields (suppliers db) q oc) as (Eq & Es & En).
  rewrite Eq in Hnotes. rewrite Es, En, Hnotes, resolve_acme.
  rewrite (find_all_false _ _ Hnone). simpl.
  split; [reflexivity|]. eexists. repeat split.
Qed.

Lemma note_derived_unmatched_witness :
  let db := Examples.db_with (Examples.cust (Some "Globex")) [Examples.sup_zeta] in
  let r := process (suppliers db) (Examples.quote_acme, Some (Examples.cust (Some "Globex"))) in
  In r (VersionA.list String.leb Examples.no_params db)
  /\ supplierName r = Some "Acme Corp"
  /\ exists p, supplier r = Some p /\ id p = None /\ name p = Some "Acme Corp".
Proof.
  intros db r.
  assert (Hin : In r (VersionA.list String.leb Examples.no_params db))
    by (left; reflexivity).
  split; [exact Hin|].
  apply (note_derived_unmatched String.leb Examples.no_params db r Hin).
  - reflexivity.
  - intros s [<- | []]. vm_compute. reflexivity.
Defined.

(** The name extracted from the example notes matches a row named
    [ACME CORP LTD]: lower-cased, the row's name contains it. *)
Lemma fuzzy_acme_ltd (s : Supplier) :
  s_name s = Some "ACME CORP LTD" -> fuzzy "Acme Corp" s = true.
Proof.
  intros E. unfold fuzzy. rewrite E. vm_compute. reflexivity.
Qed.

(** C4, as stated, fails: with a row named [Acme] ahead of the row named
    [ACME CORP LTD], [find] stops at the first and the result row carries
    that one. *)
Lemma first_match_wins_counterexample :
  let db := Examples.db_with (Examples.cust (Some "Globex"))
              [Examples.sup_acme; Examples.sup_acme_ltd] in
  exists r,
    In r (VersionA.list String.leb Examples.no_params db)
    /\ q_notes (quotation r) = Some "Suppliers: Acme Corp, Beta Inc"
    /\ In Examples.sup_acme_ltd (suppliers db)
    /\ s_name Examples.sup_acme_ltd = Some "ACME CORP LTD"
    /\ supplierName r <> Some "ACME CORP LTD"
    /\ forall p, supplier r = Some p -> id p <> Some (s_id Examples.sup_acme_ltd).
Proof.
  intros db.
  exists (process (suppliers db)
            (Examples.quote_acme, Some (Examples.cust (Some "Globex")))).
  split; [left; reflexivity|].
  split; [reflexivity|].
  split; [right; left; reflexivity|].
  split; [reflexivity|].
  split.
  - vm_compute. discriminate.
  - intros p. vm_compute. intros [= <-]. discriminate.
Qed.

(** C4, amended.  With the same notes, a supplier table holding a row
    named [ACME CORP LTD] that no fuzzy-matching row precedes: the
    extracted name matches that row, and the result row has that row's
    id in [supplier.id] and [supplierName] equal to [ACME CORP LTD]. *)
Theorem note_derived_first_match (date_le : string -> string -> bool)
    (params : Params) (db : DB) (r : Row)
    (s : Supplier) (pre post : Datatypes.list Supplier) :
  In r (VersionA.list date_le params db) ->
  q_notes (quotation r) = Some "Suppliers: Acme Corp, Beta Inc" ->
  suppliers db = pre ++ s :: post ->
  s_name s = Some "ACME CORP LTD" ->
  (forall s', In s' pre -> fuzzy "Acme Corp" s' = false) ->
  fuzzy "Acme Corp" s = true
  /\ supplierName r = Some "ACME CORP LTD"
  /\ exists p, supplier r = Some p /\ id p = Some (s_id s)
               /\ name p = Some "ACME CORP LTD".
Proof.
  intros Hin Hnotes Htable Hname Hpre.
  pose proof (fuzzy_acme_ltd s Hname) as Hs.
  split; [exact Hs|].
  apply listA_In in Hin. destruct Hin as (q & oc & _ & ->).
  destruct (processA_fields (suppliers db) q oc) as (Eq & Es & En).
  rewrite Eq in Hnotes. rewrite Es, En, Hnotes, resolve_acme, Htable.
  rewrite (find_first _ pre post s Hpre Hs). simpl.
  split; [exact Hname|]. eexists. repeat split. exact Hname.
Qed.

Lemma note_derived_first_match_witness :
  let db := Examples.db_with (Examples.cust (Some "Globex"))
              [Examples.sup_zeta; Examples.sup_acme_ltd; Examples.sup_acme] in
  let r := process (suppliers db) (Examples.quote_acme, Some (Examples.cust (Some "Globex"))) in
  In r (VersionA.list String.leb Examples.no_params db)
  /\ supplierName r = Some "ACME CORP LTD"
  /\ exists p, supplier r = Some p /\ id p = Some "s1"
               /\ name p = Some "ACME CORP LTD".
Proof.
  intros db r.
  assert (Hin : In r (VersionA.list String.leb Examples.no_params db))
    by (left; reflexivity).
  split; [exact Hin|].
  apply (note_derived_first_match String.leb Examples.no_params db r
           Examples.sup_acme_ltd [Examples.sup_zeta] [Examples.sup_acme] Hin).
  - reflexivity.
  - reflexivity.
  - reflexivity.
  - intros s' [<- | []]. vm_compute. reflexivity.
Defined.

(** When no supplier object is built, the name is the default. *)
Lemma resolve_no_supplier (sups : Datatypes.list Supplier) (notes : option string) :
  fst (resolve sups notes) = None ->
  snd (resolve sups notes) = Some "Unknown Supplier".
Proof.
  unfold resolve. destruct (truthy notes); [|reflexivity].
  destruct notes as [text|]; [|reflexivity].
  destruct (Regex.match_suppliers text); [|reflexivity].
  destruct (find _ sups); simpl; discriminate.
Qed.

(** Notes that are absent, empty or without the pattern give the
    default. *)
Lemma resolve_no_pattern (sups : Datatypes.list Supplier) (notes : option string) :
  truthy notes = false
  \/ (exists text, notes = Some text /\ Regex.match_suppliers text = None) ->
  resolve sups notes = (None, Some "Unknown Supplier").
Proof.
  unfold resolve. intros [-> | (text & -> & E)]; [reflexivity|].
  rewrite E. destruct (truthy (Some text)); reflexivity.
Qed.

Lemma resolve_named (sups : Datatypes.list Supplier) (notes : option string) :
  (forall s, In s sups -> s_name s <> None) ->
  exists n, snd (resolve sups notes) = Some n.
Proof.
  intros Hnamed. unfold resolve. destruct (truthy notes); [|simpl; eauto].
  destruct notes as [text|]; [|simpl; eauto].
  destruct (Regex.match_suppliers text) as [g|]; [|simpl; eauto].
  destruct (find _ sups) as [ms|] eqn:F; simpl; [|eauto].
  apply find_some in F. destruct F as [Hms _].
  specialize (Hnamed ms Hms). destruct (s_name ms); [eauto | congruence].
Qed.

End VersionAProps.

(** ** The join-derived [list] *)

Module VersionBProps.
Import Schema Js Listing VersionB Facts ListingFacts.

(** Every result row comes by [process] from a joined row whose supplier
    side is what the left join on the quotation's customer id found. *)
Lemma listB_In (date_le : string -> string -> bool) (params : Params)
    (db : DB) (r : Row) :
  In r (VersionB.list date_le params db) ->
  exists row : JoinedRow,
    r = process row
    /\ In (row_quotation row) (quotations db)
    /\ match row_supplier row with
       | Some c => In c (customers db)
                   /\ q_customerId (row_quotation row) = Some (c_id c)
       | None => forall c, In c (customers db) ->
                           q_customerId (row_quotation row) <> Some (c_id c)
       end.
Proof.
  unfold VersionB.list. cbv zeta. rewrite in_map_iff.
  intros ([[[q os] oso] oc] & <- & Hin).
  apply run_where_In, leftJoin_In in Hin. destruct Hin as [Hin _].
  apply leftJoin_In in Hin. destruct Hin as [Hin _].
  apply leftJoin_In in Hin. destruct Hin as [Hq Hs].
  exists (q, os, oso, oc). split; [reflexivity|].
  unfold row_quotation, row_supplier; simpl. split; [exact Hq|].
  destruct os as [c|].
  - destruct Hs as [Hc Hon]. apply sql_eq_true in Hon. auto.
  - intros c Hc. apply sql_eq_false. apply Hs, Hc.
Qed.

Lemma js_or_default (v : option string) (d : string) :
  (truthy v = true /\ js_or v (Some d) = v)
  \/ (truthy v = false /\ js_or v (Some d) = Some d).
Proof.
  unfold js_or. destruct (truthy v); auto.
Qed.

Lemma truthy_some (v : option string) :
  truthy v = true -> exists s, v = Some s /\ s <> "".
Proof.
  destruct v as [s|]; simpl; [|discriminate].
  intros H. apply negb_true_iff, String.eqb_neq in H. eauto.
Qed.

Lemma processB_fields (row : JoinedRow) :
  quotation (process row) = row_quotation row
  /\ supplier (process row) = option_map embed (row_supplier row)
  /\ supplierName (process row) =
       js_or (match option_map embed (row_supplier row) with
              | Some p => name p
              | None => None
              end) (Some "Unknown Supplier").
Proof. repeat split. Qed.

(** The name of a row of the join-derived [list] is a non-empty string. *)
Lemma process_name_present (row : JoinedRow) :
  exists s, supplierName (process row) = Some s /\ s <> "".
Proof.
  unfold process; simpl.
  match goal with |- context [js_or ?v _] =>
    destruct (js_or_default v "Unknown Supplier") as [[Ht ->] | [_ ->]] end.
  - apply truthy_some, Ht.
  - exists "Unknown Supplier". split; [reflexivity | discriminate].
Qed.

Lemma process_no_supplier (row : JoinedRow) :
  supplier (process row) = None ->
  supplierName (process row) = Some "Unknown Supplier".
Proof.
  unfold process; simpl. destruct (row_supplier row); simpl;
    [discriminate | reflexivity].
Qed.

(** C6, as stated, fails: the join finds the quotation's customer, whose
    name is the empty string and who has none of the alternative names,
    and the row is named [Unknown Supplier] all the same. *)
Lemma blank_name_defaults_counterexample :
  let db := Examples.db_with (Examples.cust (Some "")) [] in
  exists r c,
    In r (VersionB.list String.leb Examples.no_params db)
    /\ In c (customers db)
    /\ q_customerId (quotation r) = Some (c_id c)
    /\ supplier r = Some (embed c)
    /\ supplierName r = Some "Unknown Supplier"
    /\ name (embed c) <> Some "Unknown Supplier".
Proof.
  intros db.
  exists (process (Examples.quote_acme, Some (Examples.cust (Some "")), None, None)).
  exists (Examples.cust (Some "")).
  split; [left; reflexivity|].
  split; [left; reflexivity|].
  repeat split. vm_compute. discriminate.
Qed.

(** C6, amended.  In the join-derived [list] the supplier object of a row
    is present exactly when the left join on the quotation's own customer
    id finds a row, and is built from that row; when its resolved name
    (the first non-empty of [name], [customerName], [companyName],
    [fullName]) is non-empty, [supplierName] is that name; and
    [supplierName] is [Unknown Supplier] only if the joined row is absent,
    or has no non-empty name, or is itself so named. *)
Theorem join_derived_name (date_le : string -> string -> bool)
    (params : Params) (db : DB) (r : Row) :
  In r (VersionB.list date_le params db) ->
  ((exists c, In c (customers db) /\ q_customerId (quotation r) = Some (c_id c))
   <-> supplier r <> None)
  /\ (forall p, supplier r = Some p ->
        exists c, In c (customers db)
                  /\ q_customerId (quotation r) = Some (c_id c)
                  /\ p = embed c)
  /\ (forall p, supplier r = Some p -> truthy (name p) = true ->
        supplierName r = name p)
  /\ (supplierName r = Some "Unknown Supplier" ->
        supplier r = None
        \/ exists p, supplier r = Some p
                     /\ (truthy (name p) = false
                         \/ name p = Some "Unknown Supplier"))
  /\ (supplier r = None -> supplierName r = Some "Unknown Supplier")
  /\ (forall p, supplier r = Some p -> truthy (name p) = false ->
        supplierName r = Some "Unknown Supplier").
Proof.
  intros Hin. apply listB_In in Hin.
  destruct Hin as ([[[q os] oso] oc] & -> & _ & Hs).
  unfold row_quotation, row_supplier in Hs. cbn [fst snd] in Hs.
  destruct (processB_fields (q, os, oso, oc)) as (Eq & Es & En).
  unfold row_quotation, row_supplier in Eq, Es, En. cbn [fst snd] in Eq, Es, En.
  rewrite Eq, Es, En. clear Eq Es En.
  destruct os as [c|]; cbn [option_map].
  - destruct Hs as [Hc Hid]. remember (embed c) as p0 eqn:Ep.
    split; [split; [discriminate | intros _; eauto]|].
    split; [intros p [= <-]; eauto|].
    split; [intros p [= <-] Ht; unfold js_or; rewrite Ht; reflexivity|].
    split; [|split; [discriminate|]].
    + intros Hn. right. exists p0. split; [reflexivity|].
      unfold js_or in Hn. destruct (truthy (name p0)); auto.
    + intros p [= <-] Ht. unfold js_or. rewrite Ht. reflexivity.
  - split; [split; [intros (c & Hc & E); elim (Hs c Hc E) | congruence]|].
    split; [discriminate|]. split; [discriminate|].
    split; [auto|]. split; [reflexivity | discriminate].
Qed.

Lemma join_derived_name_witness :
  let c := Examples.cust (Some "Globex") in
  let db := Examples.db_with c [] in
  let r := process (Examples.quote_acme, Some c, None, None) in
  In r (VersionB.list String.leb Examples.no_params db)
  /\ supplier r = Some (embed c)
  /\ supplierName r = Some "Globex".
Proof.
  intros c db r.
  assert (Hin : In r (VersionB.list String.leb Examples.no_params db))
    by (left; reflexivity).
  split; [exact Hin|]. split; [reflexivity|].
  apply (proj1 (proj2 (proj2 (join_derived_name String.leb Examples.no_params db r Hin)))
           (embed c)); reflexivity.
Defined.

End VersionBProps.

(** ** Properties of both variants *)

Module ListProps.
Import Schema Js Listing Facts ListingFacts.

(** What the note-derived [list] would do with a supplier row whose name
    were null, which the declaration of the column rules out: the row
    would match every extracted name and its null name would be copied. *)
Lemma nameless_row_would_be_copied :
  let db := Examples.db_with (Examples.cust (Some "Globex")) [Examples.sup_nameless] in
  exists r,
    In r (VersionA.list String.leb Examples.no_params db)
    /\ supplierName r = None.
Proof.
  intros db.
  exists (VersionA.process (suppliers db)
            (Examples.quote_acme, Some (Examples.cust (Some "Globex")))).
  split; [left; reflexivity | reflexivity].
Qed.

(** C5.  Every row that [list] returns, in either variant, has a string
    for [supplierName]: always in the join-derived one, and in the
    note-derived one by the names that the rows of the supplier table
    have.  In both, a row for which no supplier object was built is named
    [Unknown Supplier], and in the note-derived one that is the case
    whenever the notes are absent, empty or do not contain the pattern. *)
Theorem supplierName_present (date_le : string -> string -> bool)
    (params : Params) (db : DB) (r : Row) :
  (In r (VersionB.list date_le params db) ->
     (exists s, supplierName r = Some s)
     /\ (supplier r = None -> supplierName r = Some "Unknown Supplier"))
  /\ (In r (VersionA.list date_le params db) ->
        (SupplierQuoteStorage.suppliers_named db -> exists s, supplierName r = Some s)
        /\ (supplier r = None -> supplierName r = Some "Unknown Supplier")
        /\ (truthy (q_notes (quotation r)) = false
            \/ (exists text, q_notes (quotation r) = Some text
                             /\ Regex.match_suppliers text = None) ->
            supplier r = None /\ supplierName r = Some "Unknown Supplier")).
Proof.
  split.
  - intros Hin. split.
    + apply VersionBProps.listB_In in Hin. destruct Hin as (row & -> & _).
      destruct (VersionBProps.process_name_present row) as (s & E & _). eauto.
    + apply VersionBProps.listB_In in Hin. destruct Hin as (row & -> & _).
      apply VersionBProps.process_no_supplier.
  - intros Hin. apply VersionAProps.listA_In in Hin.
    destruct Hin as (q & oc & _ & ->).
    destruct (VersionAProps.processA_fields (suppliers db) q oc) as (Eq & Es & En).
    rewrite Eq, Es, En. split; [|split].
    + apply VersionAProps.resolve_named.
    + apply VersionAProps.resolve_no_supplier.
    + intros H. rewrite (VersionAProps.resolve_no_pattern (suppliers db) H). auto.
Qed.

Lemma supplierName_present_witness :
  let db := Examples.db_with (Examples.cust (Some "Globex")) [Examples.sup_zeta] in
  let r := VersionA.process (suppliers db)
             (Examples.quote_acme, Some (Examples.cust (Some "Globex"))) in
  In r (VersionA.list String.leb Examples.no_params db)
  /\ SupplierQuoteStorage.suppliers_named db
  /\ exists s, supplierName r = Some s.
Proof.
  intros db r.
  assert (Hin : In r (VersionA.list String.leb Examples.no_params db))
    by (left; reflexivity).
  assert (Hnamed : SupplierQuoteStorage.suppliers_named db)
    by (intros s [<- | []]; discriminate).
  split; [exact Hin|]. split; [exact Hnamed|].
  exact (proj1 (proj2 (supplierName_present String.leb Examples.no_params db r) Hin)
           Hnamed).
Defined.

(** With [search] a string or absent, the clauses built, and the result
    of [list] in either variant, are those of the same parameters without
    [search], for every database. *)
Lemma search_is_noop (date_le : string -> string -> bool)
    (params : Params) (db : DB) :
  whereClauses params = whereClauses (without_search params)
  /\ VersionA.list date_le params db
     = VersionA.list date_le (without_search params) db
  /\ VersionB.list date_le params db
     = VersionB.list date_le (without_search params) db.
Proof.
  unfold VersionA.list, VersionB.list.
  rewrite whereClauses_without_search. repeat split.
Qed.

Lemma typed_without_search (params : AnyParams.Any) :
  without_search (AnyParams.typed params)
  = AnyParams.typed (AnyParams.without_search params).
Proof. reflexivity. Qed.

Lemma any_list_without_search (rows : Params -> DB -> list Row)
    (params : AnyParams.Any) (db : DB) :
  AnyParams.list rows (AnyParams.without_search params) db
  = Store.Ok (rows (without_search (AnyParams.typed params)) db).
Proof. reflexivity. Qed.

Lemma any_list_cases (rows : Params -> DB -> list Row)
    (params : AnyParams.Any) (db : DB) :
  AnyParams.list rows params db
  = if AnyParams.search_passes (AnyParams.a_search params)
    then Store.Ok (rows (AnyParams.typed params) db)
    else Store.Err "TypeError: params.search.trim is not a function".
Proof.
  unfold AnyParams.list, AnyParams.search_guard, AnyParams.search_passes.
  destruct (AnyParams.a_search params) as [| |[|]|n| |s|]; cbn;
    try reflexivity.
  - destruct (Z.eqb n 0); reflexivity.
  - destruct (String.eqb s ""); reflexivity.
Qed.

(** C9.  [list] with [search] removed always returns, in both variants.
    With a [search] that is falsy or a string, [list] returns the same
    rows as without it, for every database.  With a truthy [search] that
    is not a string, [list] throws a [TypeError] at the call of [trim],
    before any query, where [list] without [search] returns its rows. *)
Theorem search_noop_unless_trim_missing (date_le : string -> string -> bool)
    (params : AnyParams.Any) (db : DB) :
  let listA := AnyParams.list (VersionA.list date_le) in
  let listB := AnyParams.list (VersionB.list date_le) in
  let bare := AnyParams.without_search params in
  (exists rowsA rowsB,
     listA bare db = Store.Ok rowsA /\ listB bare db = Store.Ok rowsB)
  /\ (AnyParams.search_passes (AnyParams.a_search params) = true ->
      listA params db = listA bare db /\ listB params db = listB bare db)
  /\ (AnyParams.search_passes (AnyParams.a_search params) = false ->
      listA params db = Store.Err "TypeError: params.search.trim is not a function"
      /\ listB params db = Store.Err "TypeError: params.search.trim is not a function"
      /\ listA params db <> listA bare db
      /\ listB params db <> listB bare db).
Proof.
  cbv zeta. split; [|split].
  - eexists. eexists. split; apply any_list_without_search.
  - intros Hp. rewrite !any_list_without_search, !any_list_cases, Hp.
    destruct (search_is_noop date_le (AnyParams.typed params) db) as (_ & EA & EB).
    rewrite <- EA, <- EB. split; reflexivity.
  - intros Hp. rewrite !any_list_without_search, !any_list_cases, Hp.
    repeat split; discriminate.
Qed.

Lemma search_noop_unless_trim_missing_witness :
  let params :=
    {| AnyParams.a_supplier := None; AnyParams.a_status := None;
       AnyParams.a_dateFrom := None; AnyParams.a_dateTo := None;
       AnyParams.a_search := AnyParams.Object |} in
  let db := Examples.db_with (Examples.cust (Some "Globex")) [Examples.sup_zeta] in
  AnyParams.search_passes (AnyParams.a_search params) = false
  /\ AnyParams.list (VersionA.list String.leb) params db
     = Store.Err "TypeError: params.search.trim is not a function"
  /\ AnyParams.list (VersionA.list String.leb) (AnyParams.without_search params) db
     = Store.Ok (VersionA.list String.leb Examples.no_params db).
Proof.
  intros params db.
  assert (Hp : AnyParams.search_passes (AnyParams.a_search params) = false)
    by reflexivity.
  split; [exact Hp|]. split.
  - exact (proj1 (proj2 (proj2 (search_noop_unless_trim_missing String.leb params db))
                    Hp)).
  - reflexivity.
Defined.

End ListProps.

(** ** [GET /api/customers]: the two paths and the pagination *)

Module CustomerRoutesProps.
Import Js Store CustomerRoutes.
Import QArith Qround.
Local Open Scope Z_scope.

Lemma get_name (q : Query) :
  get "name" (drop_undefined (raw_filters q)) = qp_name q.
Proof.
  destruct q as [l o [a|] [b|] [c|] [d|] [n|] [e|]]; reflexivity.
Qed.

Lemma get_email (q : Query) :
  get "email" (drop_undefined (raw_filters q)) = qp_email q.
Proof.
  destruct q as [l o [a|] [b|] [c|] [d|] [n|] [e|]]; reflexivity.
Qed.

Lemma num_or_nonzero (n : option Z) (d : Z) : d <> 0 -> num_or n d <> 0.
Proof.
  intros Hd. unfold num_or. destruct n as [z|]; [|exact Hd].
  destruct (z =? 0) eqn:E; [exact Hd|]. apply Z.eqb_neq, E.
Qed.

Lemma parseInt_absent : parseInt None = None.
Proof. reflexivity. Qed.

(** The rational floor of a quotient of integers is their floor
    division. *)
Lemma floor_div_Zdiv (a b : Z) : floor_div a b = a / b.
Proof. unfold floor_div. symmetry. apply Zdiv_Qdiv. Qed.

Lemma ceil_div_Zdiv (a b : Z) : ceil_div a b = - ((- a) / b).
Proof.
  unfold ceil_div, Qceiling. f_equal.
  rewrite Zdiv_Qdiv. apply Qfloor_comp.
  unfold Qdiv. rewrite inject_Z_opp. ring.
Qed.

Lemma floor_div_bracket (a b : Z) :
  (inject_Z (floor_div a b) <= inject_Z a / inject_Z b
   /\ inject_Z a / inject_Z b < inject_Z (floor_div a b + 1))%Q.
Proof.
  unfold floor_div. split; [apply Qfloor_le | apply Qlt_floor].
Qed.

Lemma ceil_div_bracket (a b : Z) :
  (inject_Z (ceil_div a b - 1) < inject_Z a / inject_Z b
   /\ inject_Z a / inject_Z b <= inject_Z (ceil_div a b))%Q.
Proof.
  unfold ceil_div. split; [apply Qceiling_lt | apply Qle_ceiling].
Qed.

Section WithStorage.
Context {Customer : Type} {storage : Storage Customer}.

(** The run of the [try] block, by cases on the path taken and on what the
    storage answers. *)
Lemma list_customers_try_legacy (q : Query) :
  (truthy (qp_name q) || truthy (qp_email q))%bool = true ->
  let limit := num_or (parseInt (qp_limit q)) 50 in
  let offset := num_or (parseInt (qp_offset q)) 0 in
  let c1 := CallSearchCustomers (qp_name q) (qp_email q) limit offset in
  list_customers_try q =
  match searchCustomers (qp_name q) (qp_email q) limit offset with
  | Ok customers =>
      match getCustomerStats with
      | Ok stats =>
          (Ok (customers,
               {| page := floor_div offset limit + 1;
                  limit := limit;
                  total := totalCustomers stats;
                  pages := ceil_div (totalCustomers stats) limit |}),
           [c1; CallGetCustomerStats])
      | Err e => (Err e, [c1; CallGetCustomerStats])
      end
  | Err e => (Err e, [c1])
  end.
Proof.
  intros Hlegacy. cbv zeta. unfold list_customers_try. cbv zeta.
  rewrite get_name, get_email, Hlegacy.
  unfold hbind, call, hret.
  destruct (searchCustomers _ _ _ _) as [customers|e]; [|reflexivity].
  destruct getCustomerStats as [stats|e]; reflexivity.
Qed.

Lemma list_customers_try_general (q : Query) :
  (truthy (qp_name q) || truthy (qp_email q))%bool = false ->
  let limit := num_or (parseInt (qp_limit q)) 50 in
  let offset := num_or (parseInt (qp_offset q)) 0 in
  let filters := drop_undefined (raw_filters q) in
  let c1 := CallGetCustomers limit offset filters in
  list_customers_try q =
  match getCustomers limit offset filters with
  | Ok customers =>
      match getCustomersCount filters with
      | Ok totalCount =>
          (Ok (customers,
               {| page := floor_div offset limit + 1;
                  limit := limit;
                  total := totalCount;
                  pages := ceil_div totalCount limit |}),
           [c1; CallGetCustomersCount filters])
      | Err e => (Err e, [c1; CallGetCustomersCount filters])
      end
  | Err e => (Err e, [c1])
  end.
Proof.
  intros Hgeneral. cbv zeta. unfold list_customers_try. cbv zeta.
  rewrite get_name, get_email, Hgeneral.
  unfold hbind, call, hret.
  destruct (getCustomers _ _ _) as [customers|e]; [|reflexivity].
  destruct (getCustomersCount _) as [n|e]; reflexivity.
Qed.

(** Whatever the path, a [200] response carries the pagination computed
    from the limit, the offset and the total it reports. *)
Lemma list_customers_pagination (q : Query) (customers : list Customer)
    (pg : Pagination) :
  fst (list_customers q) = Json200 customers pg ->
  let limit := num_or (parseInt (qp_limit q)) 50 in
  let offset := num_or (parseInt (qp_offset q)) 0 in
  pg = {| page := floor_div offset limit + 1;
          limit := limit;
          total := total pg;
          pages := ceil_div (total pg) limit |}.
Proof.
  cbv zeta. unfold list_customers.
  destruct (truthy (qp_name q) || truthy (qp_email q))%bool eqn:Hpath.
  - rewrite (list_customers_try_legacy q Hpath). cbv zeta.
    destruct (searchCustomers _ _ _ _); [|discriminate].
    destruct getCustomerStats; [|discriminate].
    simpl. intros [= _ <-]. reflexivity.
  - rewrite (list_customers_try_general q Hpath). cbv zeta.
    destruct (getCustomers _ _ _); [|discriminate].
    destruct (getCustomersCount _); [|discriminate].
    simpl. intros [= _ <-]. reflexivity.
Qed.


(** C8.  A [200] response of the customer list carries
    [page = floor(offset / limit) + 1] and [pages = ceil(total / limit)],
    where [limit] is 50 and [offset] is 0 when the parameter is absent or
    does not parse.  This is stated for limits, offsets and totals that
    are safe integers, where the numbers of the handler are the integers
    of this model.  Floor and ceiling are stated by the integers that
    bracket the rational quotient, and for a positive limit by the
    multiples of the limit around the offset and the total. *)
Theorem pagination_contract (q : Query) (customers : list Customer)
    (pg : Pagination) :
  fst (list_customers q) = Json200 customers pg ->
  let lim := num_or (parseInt (qp_limit q)) 50 in
  let off := num_or (parseInt (qp_offset q)) 0 in
  Describe.safe_integer lim ->
  Describe.safe_integer off ->
  Describe.safe_integer (total pg) ->
  (qp_limit q = None \/ parseInt (qp_limit q) = None -> lim = 50)
  /\ (qp_offset q = None \/ parseInt (qp_offset q) = None -> off = 0)
  /\ limit pg = lim
  /\ lim <> 0
  /\ page pg = off / lim + 1
  /\ pages pg = - ((- total pg) / lim)
  /\ (inject_Z (page pg - 1) <= inject_Z off / inject_Z lim)%Q
  /\ (inject_Z off / inject_Z lim < inject_Z (page pg))%Q
  /\ (inject_Z (pages pg - 1) < inject_Z (total pg) / inject_Z lim)%Q
  /\ (inject_Z (total pg) / inject_Z lim <= inject_Z (pages pg))%Q
  /\ (0 < lim ->
      lim * (page pg - 1) <= off < lim * page pg
      /\ lim * (pages pg - 1) < total pg <= lim * pages pg).
Proof.
  intros Hok. apply list_customers_pagination in Hok. cbv zeta in *.
  set (lim := num_or (parseInt (qp_limit q)) 50) in *.
  set (off := num_or (parseInt (qp_offset q)) 0) in *.
  intros _ _ _.
  assert (Hlim : lim <> 0) by (apply num_or_nonzero; discriminate).
  assert (Hpage : page pg = floor_div off lim + 1) by (rewrite Hok; reflexivity).
  assert (Hpages : pages pg = ceil_div (total pg) lim) by (rewrite Hok; reflexivity).
  split.
  { intros [E | E]; subst lim; [rewrite E, parseInt_absent | rewrite E]; reflexivity. }
  split.
  { intros [E | E]; subst off; [rewrite E, parseInt_absent | rewrite E]; reflexivity. }
  split; [rewrite Hok; reflexivity|].
  split; [exact Hlim|].
  split; [rewrite Hpage, floor_div_Zdiv; reflexivity|].
  split; [rewrite Hpages, ceil_div_Zdiv; reflexivity|].
  destruct (floor_div_bracket off lim) as [Hf1 Hf2].
  destruct (ceil_div_bracket (total pg) lim) as [Hc1 Hc2].
  split; [rewrite Hpage; replace (floor_div off lim + 1 - 1) with (floor_div off lim) by lia;
          exact Hf1|].
  split; [rewrite Hpage; exact Hf2|].
  split; [rewrite Hpages; exact Hc1|].
  split; [rewrite Hpages; exact Hc2|].
  intros Hpos. rewrite Hpage, Hpages, floor_div_Zdiv, ceil_div_Zdiv.
  pose proof (Z.mul_div_le off lim Hpos).
  pose proof (Z.mul_succ_div_gt off lim Hpos).
  pose proof (Z.mul_div_le (- total pg) lim Hpos).
  pose proof (Z.mul_succ_div_gt (- total pg) lim Hpos).
  split; split; nia.
Qed.

End WithStorage.



Lemma pagination_contract_witness :
  let q := Examples.query (Some "20") (Some "45") (Some "glo") None in
  let pg := {| page := 3; limit := 20; total := 3; pages := 1 |} in
  fst (list_customers (storage := Examples.sample_storage) q)
  = Json200 ["Initech"; "Globex"] pg
  /\ Describe.safe_integer 20 /\ Describe.safe_integer 45
  /\ Describe.safe_integer (total pg)
  /\ page pg = 45 / 20 + 1
  /\ (0 < 20 -> 20 * (pages pg - 1) < total pg <= 20 * pages pg).
Proof.
  intros q pg.
  assert (Hok : fst (list_customers (storage := Examples.sample_storage) q)
                = Json200 ["Initech"; "Globex"] pg)
    by reflexivity.
  assert (H20 : Describe.safe_integer 20) by (unfold Describe.safe_integer; lia).
  assert (H45 : Describe.safe_integer 45) by (unfold Describe.safe_integer; lia).
  assert (H3 : Describe.safe_integer (total pg))
    by (unfold Describe.safe_integer; simpl; lia).
  pose proof (@pagination_contract string Examples.sample_storage q
                ["Initech"; "Globex"] pg Hok H20 H45 H3) as Hp.
  cbv zeta in Hp.
  destruct Hp as (_ & _ & _ & _ & Hpage & _ & _ & _ & _ & _ & Hpos).
  split; [exact Hok|]. split; [exact H20|]. split; [exact H45|]. split; [exact H3|].
  split; [exact Hpage|].
  intros H. exact (proj2 (Hpos H)).
Defined.

End CustomerRoutesProps.

(** ** [getById] and [getItems], alone and after [delete] *)

Module ReadProps.
Import Schema Store SupplierQuoteStorage Listing QuoteCrud Describe Facts.

Lemma find_hd_filter {A : Type} (f : A -> bool) (l : list A) :
  find f l = hd_error (filter f l).
Proof.
  induction l as [|a l IH]; simpl; [reflexivity|].
  destruct (f a); [reflexivity | exact IH].
Qed.

Lemma leftJoin_cons {A B : Type} (on : A -> B -> bool)
    (a : A) (rows : list A) (table : list B) :
  leftJoin on (a :: rows) table =
  match filter (on a) table with
  | [] => [(a, None)]
  | bs => map (fun b => (a, Some b)) bs
  end ++ leftJoin on rows table.
Proof. reflexivity. Qed.

Lemma limit1_first {A : Type} (l : list A) :
  nth_error (firstn 1 l) 0 = hd_error l.
Proof. destruct l; reflexivity. Qed.

(** The rows the join makes for one quotation all carry that quotation;
    the first carries the first matching customer. *)
Lemma filter_joined_rows (id : string) (q : Quotation) (bs : list Customer) :
  filter (fun row : Quotation * option Customer => String.eqb (q_id (fst row)) id)
         (match bs with
          | [] => [(q, None)]
          | b :: l => map (fun b => (q, Some b)) (b :: l)
          end)
  = if String.eqb (q_id q) id
    then match bs with
         | [] => [(q, None)]
         | b :: l => map (fun b => (q, Some b)) (b :: l)
         end
    else [].
Proof.
  destruct bs as [|b bs]; simpl.
  - destruct (String.eqb (q_id q) id); reflexivity.
  - destruct (String.eqb (q_id q) id) eqn:E.
    + f_equal. induction bs as [|b' bs IH]; simpl; [reflexivity|].
      rewrite E. f_equal. exact IH.
    + induction bs as [|b' bs IH]; simpl; [reflexivity|].
      rewrite E. exact IH.
Qed.

(** [getById] is the first quotation of the table with that id, together
    with the name of the first customer its [customerId] designates. *)
Lemma getById_find (db : DB) (id : string) :
  getById db id =
  option_map (view_of db) (find (fun q => String.eqb (q_id q) id) (quotations db)).
Proof.
  unfold getById. cbv zeta. rewrite limit1_first.
  unfold view_of, joined_name.
  induction (quotations db) as [|q qs IH]; [reflexivity|].
  rewrite leftJoin_cons, filter_app, map_app.
  rewrite filter_joined_rows.
  simpl find. destruct (String.eqb (q_id q) id) eqn:E.
  - cbn [option_map]. rewrite find_hd_filter.
    destruct (filter _ (customers db)) as [|b bs]; reflexivity.
  - simpl. exact IH.
Qed.

Lemma getById_absent (db : DB) (id : string) :
  (forall q, In q (quotations db) -> q_id q <> id) -> getById db id = None.
Proof.
  intros H. rewrite getById_find.
  rewrite (ListingFacts.find_all_false (fun q => String.eqb (q_id q) id) (quotations db));
    [reflexivity|].
  intros q Hq. apply String.eqb_neq, H, Hq.
Qed.

(** X1.  [getById(id)] returns nothing exactly when no quotation has that
    id.  What it returns otherwise is a quotation of the table with that
    id, and its [supplierName] is the [name] column of a customer whose id
    is the quotation's [customerId], or null when there is no such
    customer. *)
Theorem getById_found (db : DB) (id : string) :
  (getById db id = None <-> forall q, In q (quotations db) -> q_id q <> id)
  /\ forall v, getById db id = Some v ->
       In (v_quotation v) (quotations db)
       /\ q_id (v_quotation v) = id
       /\ ((exists c, In c (customers db)
                      /\ q_customerId (v_quotation v) = Some (c_id c)
                      /\ v_supplierName v = c_name c)
           \/ ((forall c, In c (customers db) ->
                          q_customerId (v_quotation v) <> Some (c_id c))
               /\ v_supplierName v = None)).
Proof.
  rewrite getById_find. split.
  - destruct (find _ (quotations db)) as [q|] eqn:F; simpl.
    + split; [discriminate|]. intros H. apply find_some in F.
      destruct F as [Hq E]. apply String.eqb_eq in E. elim (H q Hq E).
    + split; [|reflexivity]. intros _ q Hq.
      apply String.eqb_neq. exact (find_none _ _ F q Hq).
  - intros v Hv.
    destruct (find _ (quotations db)) as [q|] eqn:F; simpl in Hv; [|discriminate].
    injection Hv as <-. apply find_some in F. destruct F as [Hq E].
    apply String.eqb_eq in E. simpl. split; [exact Hq|]. split; [exact E|].
    unfold joined_name.
    destruct (find _ (customers db)) as [c|] eqn:Fc.
    + left. apply find_some in Fc. destruct Fc as [Hc Ec].
      apply sql_eq_true in Ec. eauto.
    + right. split; [|reflexivity]. intros c Hc.
      apply sql_eq_false. exact (find_none _ _ Fc c Hc).
Qed.

Lemma getById_found_witness :
  getById MoreExamples.db_small "q1"
  = Some {| v_quotation := Examples.quote_acme; v_supplierName := Some "Globex" |}
  /\ In Examples.quote_acme (quotations MoreExamples.db_small)
  /\ q_id Examples.quote_acme = "q1".
Proof.
  assert (E : getById MoreExamples.db_small "q1"
              = Some {| v_quotation := Examples.quote_acme;
                        v_supplierName := Some "Globex" |}) by reflexivity.
  split; [exact E|].
  destruct (proj2 (getById_found MoreExamples.db_small "q1") _ E) as (H1 & H2 & _).
  split; [exact H1 | exact H2].
Defined.

Lemma find_filter_other {A : Type} (p keep : A -> bool) (l : list A) :
  (forall a, p a = true -> keep a = true) ->
  find p (filter keep l) = find p l.
Proof.
  intros H. induction l as [|a l IH]; simpl; [reflexivity|].
  destruct (keep a) eqn:K; simpl.
  - destruct (p a); [reflexivity | exact IH].
  - destruct (p a) eqn:P; [|exact IH]. rewrite (H a P) in K. discriminate.
Qed.

Lemma filter_filter_other {A : Type} (p keep : A -> bool) (l : list A) :
  (forall a, p a = true -> keep a = true) ->
  filter p (filter keep l) = filter p l.
Proof.
  intros H. induction l as [|a l IH]; simpl; [reflexivity|].
  destruct (keep a) eqn:K; simpl.
  - destruct (p a); [f_equal|]; exact IH.
  - destruct (p a) eqn:P; [|exact IH]. rewrite (H a P) in K. discriminate.
Qed.

Lemma filter_none {A : Type} (p : A -> bool) (l : list A) :
  (forall a, In a l -> p a = false) -> filter p l = [].
Proof.
  induction l as [|a l IH]; simpl; intros H; [reflexivity|].
  rewrite (H a (or_introl eq_refl)). apply IH. auto.
Qed.

(** The reads on the database that both statements of [delete] leave. *)
Lemma reads_after_both_deleted (id id' : string) (db : DB) :
  getById (both_deleted id db) id = None
  /\ getItems (both_deleted id db) id = []
  /\ (id' <> id ->
      getById (both_deleted id db) id' = getById db id'
      /\ getItems (both_deleted id db) id' = getItems db id').
Proof.
  split; [|split].
  - apply getById_absent.
    intros q Hq. unfold both_deleted, delete_quotation in Hq; simpl in Hq.
    apply filter_In in Hq. destruct Hq as [_ Hq].
    apply negb_true_iff, String.eqb_neq in Hq. exact Hq.
  - unfold getItems, both_deleted, delete_quotation, delete_items; simpl.
    apply filter_none. intros it Hit. apply filter_In in Hit.
    destruct Hit as [_ Hit]. apply negb_true_iff in Hit. exact Hit.
  - intros Hne. split.
    + rewrite !getById_find.
      unfold both_deleted, delete_quotation, delete_items, view_of, joined_name;
        simpl.
      rewrite find_filter_other; [reflexivity|].
      intros q E. apply String.eqb_eq in E.
      apply negb_true_iff, String.eqb_neq. congruence.
    + unfold getItems, both_deleted, delete_quotation, delete_items; simpl.
      apply filter_filter_other. intros it E. apply sql_eq_true in E.
      apply negb_true_iff, sql_eq_false. congruence.
Qed.

(** X2.  After a [delete(id)] that returned, whatever the store rejected
    on the way, [getById(id)] finds nothing and [getItems(id)] is empty. *)
Theorem deleted_is_gone (id : string) (w : World) (a : Ack) :
  fst (delete id w) = Ok a ->
  getById (w_db (snd (delete id w))) id = None
  /\ getItems (w_db (snd (delete id w))) id = [].
Proof.
  intros Hok.
  destruct (DeleteProps.delete_outcome id w) as [(fs & E) | (e & fs & E)];
    rewrite E in *; simpl in *; [|discriminate].
  destruct (reads_after_both_deleted id id (w_db w)) as (H1 & H2 & _). auto.
Qed.

Lemma deleted_is_gone_witness :
  getById MoreExamples.db_small "q1" <> None
  /\ getItems MoreExamples.db_small "q1" = [Examples.item_acme]
  /\ getById (w_db (snd (delete "q1" (calm MoreExamples.db_small)))) "q1" = None
  /\ getItems (w_db (snd (delete "q1" (calm MoreExamples.db_small)))) "q1" = [].
Proof.
  split; [discriminate|]. split; [reflexivity|].
  exact (deleted_is_gone "q1" (calm MoreExamples.db_small) (a := deleted_ack) eq_refl).
Defined.

(** X3.  [delete(id)], however it ends, leaves [getById] and [getItems] of
    every other id as they were. *)
Theorem delete_spares_others (id id' : string) (w : World) :
  id' <> id ->
  getById (w_db (snd (delete id w))) id' = getById (w_db w) id'
  /\ getItems (w_db (snd (delete id w))) id' = getItems (w_db w) id'.
Proof.
  intros Hne.
  destruct (DeleteProps.delete_outcome id w) as [(fs & E) | (e & fs & E)];
    rewrite E; simpl.
  - exact (proj2 (proj2 (reads_after_both_deleted id id' (w_db w))) Hne).
  - split; reflexivity.
Qed.

Lemma delete_spares_others_witness :
  getById (w_db (snd (delete "q2" (calm MoreExamples.db_small)))) "q1"
  = getById MoreExamples.db_small "q1"
  /\ getItems (w_db (snd (delete "q2" (calm MoreExamples.db_small)))) "q1"
     = [Examples.item_acme].
Proof.
  assert (Hne : "q1" <> "q2") by discriminate.
  exact (@delete_spares_others "q2" "q1" (calm MoreExamples.db_small) Hne).
Defined.

(** X4.  [delete] neither consults nor clears the references: for every
    id, [hasReferences] answers after a [delete] what it answered before,
    so a quotation that sales orders, acceptances or purchase orders refer
    to is deleted like any other and the references stay behind. *)
Theorem delete_keeps_references (id id' : string) (w : World) :
  hasReferences (w_db (snd (delete id w))) id' = hasReferences (w_db w) id'
  /\ (hasReferences (w_db w) id = true ->
      w_faults w = [] ->
      fst (delete id w) = Ok deleted_ack
      /\ getById (w_db (snd (delete id w))) id = None
      /\ hasReferences (w_db (snd (delete id w))) id = true).
Proof.
  split.
  - destruct (DeleteProps.delete_outcome id w) as [(fs & E) | (e & fs & E)];
      rewrite E; reflexivity.
  - intros Href Hcalm. destruct w as [db fs]. simpl in *. subst fs.
    change {| w_db := db; w_faults := [] |} with (calm db).
    rewrite DeleteProps.delete_calm. simpl.
    split; [reflexivity|]. split.
    + exact (proj1 (reads_after_both_deleted id id db)).
    + exact Href.
Qed.

Lemma delete_keeps_references_witness :
  hasReferences MoreExamples.db_ordered "q1" = true
  /\ fst (delete "q1" (calm MoreExamples.db_ordered)) = Ok deleted_ack
  /\ getById (w_db (snd (delete "q1" (calm MoreExamples.db_ordered)))) "q1" = None
  /\ hasReferences (w_db (snd (delete "q1" (calm MoreExamples.db_ordered)))) "q1" = true.
Proof.
  assert (Href : hasReferences MoreExamples.db_ordered "q1" = true) by reflexivity.
  split; [exact Href|].
  exact (proj2 (delete_keeps_references "q1" "q1" (calm MoreExamples.db_ordered))
           Href eq_refl).
Defined.

End ReadProps.

(** ** [create] and [update] *)

Module WriteProps.
Import Schema Store SupplierQuoteStorage Listing QuoteCrud Describe Facts.

Lemma added_nothing (db : DB) : added db [] [] = db.
Proof. destruct db. unfold added; simpl. rewrite !app_nil_r. reflexivity. Qed.

Lemma added_more (db : DB) (a c : list Quotation) (b d : list QuotationItem) :
  added (added db a b) c d = added db (a ++ c) (b ++ d).
Proof. unfold added; simpl. rewrite <- !app_assoc. reflexivity. Qed.

Lemma insert_item_added (it : QuotationItem) (db : DB) :
  insert_item it db = added db [] [it].
Proof. unfold insert_item, added. rewrite app_nil_r. reflexivity. Qed.

Lemma insert_quotation_added (q : Quotation) (db : DB) :
  insert_quotation q db = added db [q] [].
Proof. unfold insert_quotation, added. rewrite app_nil_r. reflexivity. Qed.



Lemma for_each_insert_calm (quoteId : string) (items : list QuotationItem) (db : DB) :
  for_each items (fun item => stmt (insert_item (tag quoteId item))) (calm db)
  = (Ok tt, calm (added db [] (map (tag quoteId) items))).
Proof.
  revert db. induction items as [|item rest IH]; intros db.
  - simpl. unfold ret. rewrite added_nothing. reflexivity.
  - simpl for_each. unfold bind at 1. unfold stmt at 1. simpl.
    change {| w_db := insert_item (tag quoteId item) db; w_faults := [] |}
      with (calm (insert_item (tag quoteId item) db)).
    rewrite IH, insert_item_added, added_more. reflexivity.
Qed.


(** [create], with its binds spelled out. *)
Lemma create_steps (data : NewQuote) (w : World) :
  create data w =
  match stmt (insert_quotation (n_row data)) w with
  | (Ok _, w1) =>
      match for_each (items_of data)
              (fun item => stmt (insert_item (tag (q_id (n_row data)) item))) w1 with
      | (Ok _, w2) => read (fun db => getById db (q_id (n_row data))) w2
      | (Err e, w2) => (Err e, w2)
      end
  | (Err e, w1) => (Err e, w1)
  end.
Proof.
  unfold create, bind, ret, items_of.
  destruct (stmt (insert_quotation (n_row data)) w) as [[u|e] w1]; [|reflexivity].
  destruct (n_items data) as [items|]; [|reflexivity].
  destruct (for_each items _ w1) as [[u'|e] w2]; reflexivity.
Qed.







(** Each of the four ways occurs: with one item, under the schedules that
    accept everything, reject the quotation, reject the item, and reject
    the re-read. *)
Lemma create_outcomes_occur :
  fst (create MoreExamples.one_item (calm MoreExamples.db_small))
  = Ok (Some {| v_quotation := MoreExamples.quote_new;
                v_supplierName := Some "Globex" |})
  /\ create MoreExamples.one_item
       {| w_db := MoreExamples.db_small; w_faults := [true] |}
     = (Err "statement rejected", calm MoreExamples.db_small)
  /\ create MoreExamples.one_item
       {| w_db := MoreExamples.db_small; w_faults := [false; true] |}
     = (Err "statement rejected",
        calm (added MoreExamples.db_small [MoreExamples.quote_new] []))
  /\ create MoreExamples.one_item
       {| w_db := MoreExamples.db_small; w_faults := [false; false; true] |}
     = (Err "query rejected",
        calm (added MoreExamples.db_small [MoreExamples.quote_new]
                (tagged_items MoreExamples.one_item))).
Proof. repeat split. Qed.

Lemma create_calm (data : NewQuote) (db : DB) :
  create data (calm db)
  = (Ok (getById (added db [n_row data] (tagged_items data)) (q_id (n_row data))),
     calm (added db [n_row data] (tagged_items data))).
Proof.
  rewrite create_steps. unfold tagged_items. unfold stmt at 1. cbn [calm w_faults w_db].
  change {| w_db := insert_quotation (n_row data) db; w_faults := [] |}
    with (calm (insert_quotation (n_row data) db)).
  rewrite for_each_insert_calm, insert_quotation_added, added_more. reflexivity.
Qed.

Lemma find_app_absent {A : Type} (p : A -> bool) (l l' : list A) :
  (forall a, In a l -> p a = false) -> find p (l ++ l') = find p l'.
Proof.
  induction l as [|a l IH]; simpl; intros H; [reflexivity|].
  rewrite (H a (or_introl eq_refl)). apply IH. auto.
Qed.

(** X6.  When the store rejects nothing and no quotation has the new id
    yet, [create] returns the new quotation with the name of the customer
    it designates, and afterwards [getById] finds the same and [getItems]
    returns what it returned before followed by one row per item of the
    argument, in order, each with the new id for parent.  When the line
    items already there respect their foreign key, those rows are all
    there is. *)
Theorem create_then_read (data : NewQuote) (db : DB) :
  (forall q, In q (quotations db) -> q_id q <> q_id (n_row data)) ->
  let id := q_id (n_row data) in
  let db' := w_db (snd (create data (calm db))) in
  fst (create data (calm db)) = Ok (Some (view_of db (n_row data)))
  /\ getById db' id = Some (view_of db (n_row data))
  /\ getItems db' id = getItems db id ++ tagged_items data
  /\ List.length (tagged_items data) = List.length (items_of data)
  /\ (forall it, In it (tagged_items data) -> qi_quotationId it = Some id)
  /\ (items_have_parent db -> getItems db' id = tagged_items data).
Proof.
  intros Hfresh. cbv zeta. rewrite create_calm. cbn [fst snd w_db calm].
  assert (Hget : getById (added db [n_row data] (tagged_items data)) (q_id (n_row data))
                 = Some (view_of db (n_row data))).
  { rewrite ReadProps.getById_find. unfold added; simpl.
    rewrite find_app_absent.
    - simpl. rewrite String.eqb_refl. reflexivity.
    - intros q Hq. apply String.eqb_neq, Hfresh, Hq. }
  assert (Htag : forall it, In it (tagged_items data) ->
                            qi_quotationId it = Some (q_id (n_row data))).
  { intros it Hit. unfold tagged_items in Hit. apply in_map_iff in Hit.
    destruct Hit as (x & <- & _). reflexivity. }
  assert (Hitems : getItems (added db [n_row data] (tagged_items data)) (q_id (n_row data))
                   = getItems db (q_id (n_row data)) ++ tagged_items data).
  { unfold getItems, added; simpl. rewrite filter_app. f_equal.
    apply filter_id. intros it Hit. apply sql_eq_true, Htag, Hit. }
  split; [rewrite Hget; reflexivity|]. split; [exact Hget|].
  split; [exact Hitems|].
  split; [unfold tagged_items; apply length_map|].
  split; [exact Htag|].
  intros Hfk. rewrite Hitems.
  replace (getItems db (q_id (n_row data))) with (@nil QuotationItem); [reflexivity|].
  symmetry. apply ReadProps.filter_none. intros it Hit.
  apply sql_eq_false. intros Hp.
  destruct (Hfk it _ Hit Hp) as (q & Hq & E). exact (Hfresh q Hq E).
Qed.

Lemma create_then_read_witness :
  (forall q, In q (quotations MoreExamples.db_small) ->
             q_id q <> q_id (n_row MoreExamples.new_quote))
  /\ fst (create MoreExamples.new_quote (calm MoreExamples.db_small))
     = Ok (Some {| v_quotation := MoreExamples.quote_new;
                   v_supplierName := Some "Globex" |})
  /\ List.length
       (getItems (w_db (snd (create MoreExamples.new_quote (calm MoreExamples.db_small))))
                 "q7") = 2.
Proof.
  assert (Hfresh : forall q, In q (quotations MoreExamples.db_small) ->
                             q_id q <> q_id (n_row MoreExamples.new_quote))
    by (intros q [<- | []]; discriminate).
  split; [exact Hfresh|].
  pose proof (create_then_read MoreExamples.new_quote MoreExamples.db_small Hfresh) as H.
  cbv zeta in H. destruct H as (H1 & _).
  split; [exact H1 | reflexivity].
Defined.

Lemma find_present {A : Type} (p : A -> bool) (l : list A) (a : A) :
  In a l -> p a = true -> find p l <> None.
Proof.
  intros Hin Hp F. rewrite (find_none _ _ F a Hin) in Hp. discriminate.
Qed.

(** X7.  The partial outcome of [create] is real: for an argument with at
    least one item, when the store accepts the quotation and rejects the
    first item, [create] throws, the quotation is in the database and none
    of its items is. *)
Theorem create_leaves_orphan (data : NewQuote) (db : DB) :
  items_of data <> [] ->
  let w := {| w_db := db; w_faults := [false; true] |} in
  (exists e, fst (create data w) = Err e)
  /\ w_db (snd (create data w)) = added db [n_row data] []
  /\ getById (w_db (snd (create data w))) (q_id (n_row data)) <> None
  /\ getItems (w_db (snd (create data w))) (q_id (n_row data))
     = getItems db (q_id (n_row data)).
Proof.
  intros Hitems. cbv zeta. rewrite create_steps.
  destruct (items_of data) as [|item rest]; [congruence|].
  unfold stmt at 1. cbn [w_faults w_db]. cbn [for_each]. unfold bind, stmt.
  cbn [w_faults w_db fst snd]. rewrite insert_quotation_added.
  split; [eexists; reflexivity|]. split; [reflexivity|]. split.
  - rewrite ReadProps.getById_find. unfold added; cbn [quotations].
    destruct (find _ (quotations db ++ [n_row data])) eqn:F; [discriminate|].
    exfalso. revert F.
    apply (find_present _ (quotations db ++ [n_row data]) (n_row data)).
    + apply in_or_app. right. left. reflexivity.
    + apply String.eqb_refl.
  - unfold getItems, added; cbn [quotationItems]. rewrite app_nil_r. reflexivity.
Qed.

Lemma create_leaves_orphan_witness :
  items_of MoreExamples.new_quote <> []
  /\ fst (create MoreExamples.new_quote
            {| w_db := MoreExamples.db_small; w_faults := [false; true] |})
     = Err "statement rejected"
  /\ getById (w_db (snd (create MoreExamples.new_quote
                          {| w_db := MoreExamples.db_small;
                             w_faults := [false; true] |}))) "q7" <> None.
Proof.
  assert (Hitems : items_of MoreExamples.new_quote <> []) by discriminate.
  split; [exact Hitems|]. split; [reflexivity|].
  exact (proj1 (proj2 (proj2 (create_leaves_orphan MoreExamples.new_quote
                                MoreExamples.db_small Hitems)))).
Defined.

(** The three ways a run of [update] can end. *)
Lemma update_outcome (id : string) (u : Updates) (w : World) :
  (exists fs,
      update id u w
      = (Ok (getById (update_rows id u (w_db w)) id),
         {| w_db := update_rows id u (w_db w); w_faults := fs |}))
  \/ (exists fs,
        w_faults w = true :: fs
        /\ update id u w
           = (Err "Failed to update supplier quote: statement rejected",
              {| w_db := w_db w; w_faults := fs |}))
  \/ (exists fs,
        w_faults w = false :: true :: fs
        /\ update id u w
           = (Err "Failed to update supplier quote: query rejected",
              {| w_db := update_rows id u (w_db w); w_faults := fs |})).
Proof.
  unfold update, try_rethrow, bind, read, stmt.
  destruct (w_faults w) as [|[] [|[] fs]]; cbn [w_faults w_db];
    first [ left; eexists; reflexivity
          | right; left; eexists; split; reflexivity
          | right; right; eexists; split; reflexivity ].
Qed.

Lemma find_map {A : Type} (p : A -> bool) (f : A -> A) (l : list A) :
  find p (map f l) = option_map f (find (fun a => p (f a)) l).
Proof.
  induction l as [|a l IH]; simpl; [reflexivity|].
  destruct (p (f a)); [reflexivity | exact IH].
Qed.

Lemma find_ext {A : Type} (p p' : A -> bool) (l : list A) :
  (forall a, p a = p' a) -> find p l = find p' l.
Proof.
  intros H. induction l as [|a l IH]; simpl; [reflexivity|].
  rewrite H, IH. reflexivity.
Qed.

(** Reading a row back from the table that [update] leaves, when the
    updates do not set the key. *)
Lemma getById_update_rows (id id' : string) (u : Updates) (db : DB) :
  u_id u = None ->
  getById (update_rows id u db) id'
  = if String.eqb id' id
    then option_map (fun v => view_of db (apply_updates u (v_quotation v)))
                    (getById db id)
    else getById db id'.
Proof.
  intros Hkey. rewrite !ReadProps.getById_find.
  unfold update_rows; cbn [quotations]. rewrite find_map.
  rewrite (find_ext _ (fun q => String.eqb (q_id q) id')).
  2:{ intros q. destruct (String.eqb (q_id q) id); [|reflexivity].
      unfold apply_updates; simpl. rewrite Hkey. reflexivity. }
  destruct (String.eqb_spec id' id) as [-> | Hne].
  - destruct (find _ (quotations db)) as [q|] eqn:F; [|reflexivity].
    apply find_some in F. destruct F as [_ E]. simpl. rewrite E. reflexivity.
  - destruct (find _ (quotations db)) as [q|] eqn:F; [|reflexivity].
    apply find_some in F. destruct F as [_ E]. apply String.eqb_eq in E.
    simpl. destruct (String.eqb_spec (q_id q) id) as [E'|_]; [congruence|].
    reflexivity.
Qed.

(** X8.  When [update] returns and the updates do not set the key, what it
    returns is the stored row with the updates applied and the supplier
    name re-read for the new customer, or nothing when no quotation has
    the id; [getById] then returns the same, and the rows of every other
    id and all line items read as before. *)
Theorem update_then_read (id : string) (u : Updates) (w : World)
    (r : option QuoteView) :
  u_id u = None ->
  fst (update id u w) = Ok r ->
  r = option_map (fun v => view_of (w_db w) (apply_updates u (v_quotation v)))
                 (getById (w_db w) id)
  /\ getById (w_db (snd (update id u w))) id = r
  /\ (forall id', id' <> id ->
        getById (w_db (snd (update id u w))) id' = getById (w_db w) id')
  /\ (forall id', getItems (w_db (snd (update id u w))) id' = getItems (w_db w) id').
Proof.
  intros Hkey Hok.
  destruct (update_outcome id u w) as [(fs & E) | [(fs & _ & E) | (fs & _ & E)]];
    rewrite E in *; cbn [fst snd w_db] in *; [|discriminate|discriminate].
  injection Hok as <-.
  pose proof (getById_update_rows id id u (w_db w) Hkey) as Hsame.
  rewrite String.eqb_refl in Hsame.
  split; [exact Hsame|]. split; [reflexivity|]. split.
  - intros id' Hne. rewrite (getById_update_rows id id' u (w_db w) Hkey).
    destruct (String.eqb_spec id' id); [congruence | reflexivity].
  - intros id'. reflexivity.
Qed.

Lemma update_then_read_witness :
  fst (update "q1" (MoreExamples.set_status "Sent") (calm MoreExamples.db_small))
  = Ok (Some {| v_quotation :=
                  apply_updates (MoreExamples.set_status "Sent") Examples.quote_acme;
                v_supplierName := Some "Globex" |})
  /\ q_status (apply_updates (MoreExamples.set_status "Sent") Examples.quote_acme)
     = Some "Sent"
  /\ getById (w_db (snd (update "q1" (MoreExamples.set_status "Sent")
                           (calm MoreExamples.db_small)))) "q1"
     = Some {| v_quotation :=
                 apply_updates (MoreExamples.set_status "Sent") Examples.quote_acme;
               v_supplierName := Some "Globex" |}.
Proof.
  assert (E : fst (update "q1" (MoreExamples.set_status "Sent")
                     (calm MoreExamples.db_small))
              = Ok (Some {| v_quotation :=
                              apply_updates (MoreExamples.set_status "Sent")
                                            Examples.quote_acme;
                            v_supplierName := Some "Globex" |})) by reflexivity.
  split; [exact E|]. split; [reflexivity|].
  exact (proj1 (proj2 (@update_then_read "q1" (MoreExamples.set_status "Sent")
                         (calm MoreExamples.db_small) _ eq_refl E))).
Defined.

(** X9.  When [update] throws, the message is the fixed prefix followed by
    the store's own message.  If it was the UPDATE that the store
    rejected, the database is as it was; if it was the re-read, the update
    has been applied although [update] threw.  For an id that no
    quotation has, [update] changes nothing however it ends, and what it
    returns, if it returns, is nothing. *)
Theorem update_failure_and_absence (id : string) (u : Updates) (w : World) :
  (forall e, fst (update id u w) = Err e ->
     (exists cause, e = String.append "Failed to update supplier quote: " cause)
     /\ ((exists fs, w_faults w = true :: fs)
         /\ w_db (snd (update id u w)) = w_db w
         \/ (exists fs, w_faults w = false :: true :: fs)
            /\ w_db (snd (update id u w)) = update_rows id u (w_db w)))
  /\ (forall fs, w_faults w = true :: fs ->
        fst (update id u w)
        = Err "Failed to update supplier quote: statement rejected"
        /\ w_db (snd (update id u w)) = w_db w)
  /\ (forall fs, w_faults w = false :: true :: fs ->
        fst (update id u w)
        = Err "Failed to update supplier quote: query rejected"
        /\ w_db (snd (update id u w)) = update_rows id u (w_db w))
  /\ ((forall q, In q (quotations (w_db w)) -> q_id q <> id) ->
      w_db (snd (update id u w)) = w_db w
      /\ forall r, fst (update id u w) = Ok r -> r = None).
Proof.
  split; [|split; [|split]].
  - intros e He.
    destruct (update_outcome id u w) as [(fs & E) | [(fs & Hf & E) | (fs & Hf & E)]];
      rewrite E in *; cbn [fst snd w_db] in *; [discriminate| |].
    + injection He as <-. split; [eexists; reflexivity|]. left. eauto.
    + injection He as <-. split; [eexists; reflexivity|]. right. eauto.
  - intros fs Hf.
    destruct (update_outcome id u w) as [(fs' & E) | [(fs' & Hf' & E) | (fs' & Hf' & E)]];
      rewrite E; cbn [fst snd w_db].
    + exfalso. revert E. unfold update, try_rethrow, bind, read, stmt.
      rewrite Hf. discriminate.
    + split; reflexivity.
    + congruence.
  - intros fs Hf.
    destruct (update_outcome id u w) as [(fs' & E) | [(fs' & Hf' & E) | (fs' & Hf' & E)]];
      rewrite E; cbn [fst snd w_db].
    + exfalso. revert E. unfold update, try_rethrow, bind, read, stmt.
      rewrite Hf. cbn [w_faults]. discriminate.
    + congruence.
    + split; reflexivity.
  - intros Habs.
    assert (Hrows : update_rows id u (w_db w) = w_db w).
    { destruct (w_db w) as [qs its cs ss sos cas pos]. unfold update_rows; simpl in *.
      f_equal. rewrite <- (map_id qs) at 2. apply map_ext_in.
      intros q Hq. destruct (String.eqb_spec (q_id q) id) as [E|_]; [|reflexivity].
      elim (Habs q Hq E). }
    destruct (update_outcome id u w) as [(fs & E) | [(fs & _ & E) | (fs & _ & E)]];
      rewrite E; cbn [fst snd w_db].
    + split; [exact Hrows|]. intros r [= <-]. rewrite Hrows.
      apply ReadProps.getById_absent, Habs.
    + split; [reflexivity | discriminate].
    + split; [exact Hrows | discriminate].
Qed.

Lemma update_failure_and_absence_witness :
  fst (update "q1" (MoreExamples.set_status "Sent")
         {| w_db := MoreExamples.db_small; w_faults := [false; true] |})
  = Err "Failed to update supplier quote: query rejected"
  /\ q_status (v_quotation
                 (view_of MoreExamples.db_small Examples.quote_acme)) = Some "Draft"
  /\ getById (w_db (snd (update "q1" (MoreExamples.set_status "Sent")
                           {| w_db := MoreExamples.db_small;
                              w_faults := [false; true] |}))) "q1"
     = Some (view_of MoreExamples.db_small
               (apply_updates (MoreExamples.set_status "Sent") Examples.quote_acme)).
Proof.
  destruct (proj1 (proj2 (proj2 (update_failure_and_absence "q1"
                                   (MoreExamples.set_status "Sent")
                                   {| w_db := MoreExamples.db_small;
                                      w_faults := [false; true] |})))
              [] eq_refl) as (Hmsg & Hdb).
  split; [exact Hmsg|]. split; [reflexivity|].
  rewrite Hdb. reflexivity.
Defined.

End WriteProps.

(** ** The filters of [list] *)

Module FilterProps.
Import Schema Js Listing Describe Facts ListingFacts.

(** The clauses that the prologue builds, parameter by parameter. *)
Lemma whereClauses_parts (params : Params) :
  whereClauses params =
  match p_supplier params with
  | Some v => if (negb (String.eqb v "") && negb (String.eqb v "all"))%bool
              then [EqCustomerId v] else []
  | None => []
  end
  ++ match p_status params with
     | Some v => if (negb (String.eqb v "") && negb (String.eqb v "all"))%bool
                 then [EqStatus v] else []
     | None => []
     end
  ++ match p_dateFrom params with
     | Some v => if negb (String.eqb v "") then [GteValidUntil v] else []
     | None => []
     end
  ++ match p_dateTo params with
     | Some v => if negb (String.eqb v "") then [LteValidUntil v] else []
     | None => []
     end.
Proof.
  unfold whereClauses. cbv zeta.
  destruct (search_given params).
  all: destruct (p_supplier params) as [a|]; [unfold truthy, strict_ne;
         destruct (String.eqb a ""); destruct (String.eqb a "all")|].
  all: destruct (p_status params) as [b|]; [unfold truthy, strict_ne;
         destruct (String.eqb b ""); destruct (String.eqb b "all")|].
  all: destruct (p_dateFrom params) as [c|]; [unfold truthy;
         destruct (String.eqb c "")|].
  all: destruct (p_dateTo params) as [d|]; [unfold truthy;
         destruct (String.eqb d "")|].
  all: reflexivity.
Qed.

Section Dates.
Variable date_le : string -> string -> bool.

(** The clauses hold of a quotation exactly when it is wanted. *)
Lemma clauses_hold_iff (params : Params) (q : Quotation) :
  forallb (fun c => clause_holds date_le c q) (whereClauses params) = true
  <-> wanted date_le params q.
Proof.
  rewrite whereClauses_parts, !forallb_app, !andb_true_iff. unfold wanted.
  match goal with
  | |- (?A /\ ?B /\ ?C /\ ?D) <-> (?A' /\ ?B' /\ ?C' /\ ?D') =>
      assert (HA : A <-> A');
      [|assert (HB : B <-> B');
        [|assert (HC : C <-> C');
          [|assert (HD : D <-> D'); [|tauto]]]]
  end.
  - unfold selects. destruct (p_supplier params) as [x|].
    + destruct (String.eqb_spec x "") as [-> | Hne]; simpl.
      * split; [|reflexivity]. intros _ y ([= <-] & H & _). congruence.
      * destruct (String.eqb_spec x "all") as [-> | Hna]; simpl.
        -- split; [|reflexivity]. intros _ y ([= <-] & _ & H). congruence.
        -- rewrite andb_true_r, sql_eq_true.
           split; [intros H y ([= <-] & _); exact H | intros H; apply H; auto].
    + simpl. split; [|reflexivity]. intros _ y ([=] & _).
  - unfold selects. destruct (p_status params) as [x|].
    + destruct (String.eqb_spec x "") as [-> | Hne]; simpl.
      * split; [|reflexivity]. intros _ y ([= <-] & H & _). congruence.
      * destruct (String.eqb_spec x "all") as [-> | Hna]; simpl.
        -- split; [|reflexivity]. intros _ y ([= <-] & _ & H). congruence.
        -- rewrite andb_true_r, sql_eq_true.
           split; [intros H y ([= <-] & _); exact H | intros H; apply H; auto].
    + simpl. split; [|reflexivity]. intros _ y ([=] & _).
  - destruct (p_dateFrom params) as [x|].
    + destruct (String.eqb_spec x "") as [-> | Hne]; simpl.
      * split; [|reflexivity]. intros _ y [= <-] H. congruence.
      * rewrite andb_true_r. split.
        -- intros H y [= <-] _. destruct (q_validUntil q) as [d|]; [eauto | discriminate].
        -- intros H. destruct (H x eq_refl Hne) as (d & -> & Hd). exact Hd.
    + simpl. split; [|reflexivity]. intros _ y [=].
  - destruct (p_dateTo params) as [x|].
    + destruct (String.eqb_spec x "") as [-> | Hne]; simpl.
      * split; [|reflexivity]. intros _ y [= <-] H. congruence.
      * rewrite andb_true_r. split.
        -- intros H y [= <-] _. destruct (q_validUntil q) as [d|]; [eauto | discriminate].
        -- intros H. destruct (H x eq_refl Hne) as (d & -> & Hd). exact Hd.
    + simpl. split; [|reflexivity]. intros _ y [=].
Qed.

Lemma run_where_iff {Row : Type} (quot : Row -> Quotation)
    (wc : list Clause) (rows : list Row) (r : Row) :
  In r (run_where date_le quot wc rows)
  <-> In r rows /\ forallb (fun c => clause_holds date_le c (quot r)) wc = true.
Proof.
  unfold run_where. destruct wc as [|c wc]; simpl.
  - tauto.
  - rewrite filter_In. simpl. tauto.
Qed.

End Dates.

Lemma leftJoin_keeps {A B : Type} (on : A -> B -> bool)
    (rows : list A) (table : list B) (a : A) :
  In a rows -> exists ob, In (a, ob) (leftJoin on rows table).
Proof.
  intros Ha. unfold leftJoin.
  destruct (filter (on a) table) as [|b bs] eqn:F.
  - exists None. apply in_flat_map. exists a. rewrite F. split; [exact Ha | left; reflexivity].
  - exists (Some b). apply in_flat_map. exists a. rewrite F.
    split; [exact Ha | left; reflexivity].
Qed.

(** X10.  In both variants of [list], every row is a quotation of the
    table that the parameters want: its customer is [supplier] and its
    status is [status] when these are given, not empty and not [all], and
    its [validUntil] is present and not before [dateFrom] nor after
    [dateTo] when these are given and not empty.  Conversely every wanted
    quotation of the table has a row. *)
Theorem list_returns_the_wanted (date_le : string -> string -> bool)
    (params : Params) (db : DB) :
  (forall r, In r (VersionA.list date_le params db) ->
     In (quotation r) (quotations db) /\ wanted date_le params (quotation r))
  /\ (forall r, In r (VersionB.list date_le params db) ->
        In (quotation r) (quotations db) /\ wanted date_le params (quotation r))
  /\ (forall q, In q (quotations db) -> wanted date_le params q ->
        (exists r, In r (VersionA.list date_le params db) /\ quotation r = q)
        /\ (exists r, In r (VersionB.list date_le params db) /\ quotation r = q)).
Proof.
  split; [|split].
  - intros r Hr. unfold VersionA.list in Hr. cbv zeta in Hr.
    apply in_map_iff in Hr. destruct Hr as ([q oc] & <- & Hin).
    apply run_where_iff in Hin. destruct Hin as [Hin Hc].
    apply leftJoin_In in Hin. destruct Hin as [Hq _].
    destruct (VersionAProps.processA_fields (suppliers db) q oc) as (-> & _).
    split; [exact Hq | apply clauses_hold_iff; exact Hc].
  - intros r Hr. unfold VersionB.list in Hr. cbv zeta in Hr.
    apply in_map_iff in Hr. destruct Hr as ([[[q os] oso] oc] & <- & Hin).
    apply run_where_iff in Hin. destruct Hin as [Hin Hc].
    apply leftJoin_In in Hin. destruct Hin as [Hin _].
    apply leftJoin_In in Hin. destruct Hin as [Hin _].
    apply leftJoin_In in Hin. destruct Hin as [Hq _].
    split; [exact Hq | apply clauses_hold_iff; exact Hc].
  - intros q Hq Hw. apply clauses_hold_iff in Hw. split.
    + destruct (leftJoin_keeps (fun q c => sql_eq (q_customerId q) (c_id c))
                  (quotations db) (customers db) q Hq) as (oc & Hrow).
      exists (VersionA.process (suppliers db) (q, oc)). split.
      * unfold VersionA.list. cbv zeta. apply in_map.
        apply run_where_iff. split; [exact Hrow | exact Hw].
      * apply VersionAProps.processA_fields.
    + destruct (leftJoin_keeps (fun q s => sql_eq (q_customerId q) (c_id s))
                  (quotations db) (customers db) q Hq) as (os & H1).
      destruct (leftJoin_keeps
                  (fun (r : Quotation * option Customer) so =>
                     sql_eq (so_quotationId so) (q_id (fst r)))
                  _ (salesOrders db) _ H1) as (oso & H2).
      destruct (leftJoin_keeps
                  (fun (r : (Quotation * option Customer) * option SalesOrder) c =>
                     match snd r with
                     | Some so => sql_eq (so_customerId so) (c_id c)
                     | None => false
                     end)
                  _ (customers db) _ H2) as (oc & H3).
      exists (VersionB.process (q, os, oso, oc)). split; [|reflexivity].
      unfold VersionB.list. cbv zeta. apply in_map.
      apply run_where_iff. split; [exact H3 | exact Hw].
Qed.

Lemma list_returns_the_wanted_witness :
  In (VersionA.process (suppliers MoreExamples.db_small)
        (Examples.quote_acme, Some MoreExamples.globex))
     (VersionA.list String.leb MoreExamples.drafts MoreExamples.db_small)
  /\ q_status Examples.quote_acme = Some "Draft".
Proof.
  assert (Hin : In (VersionA.process (suppliers MoreExamples.db_small)
                      (Examples.quote_acme, Some MoreExamples.globex))
                   (VersionA.list String.leb MoreExamples.drafts MoreExamples.db_small))
    by (left; reflexivity).
  split; [exact Hin|].
  destruct (proj1 (list_returns_the_wanted String.leb MoreExamples.drafts
                     MoreExamples.db_small) _ Hin) as (_ & _ & Hstatus & _).
  apply (Hstatus "Draft"). repeat split; discriminate.
Defined.

(** X11.  A [supplier] that is absent, empty or [all] does not filter:
    [list] returns what it returns without it, the other parameters,
    [status] among them, being kept; and so for such a [status], with
    [supplier] kept.  In both variants. *)
Theorem unselective_filters_ignored (date_le : string -> string -> bool)
    (params : Params) (db : DB) :
  (unselective (p_supplier params) ->
     let bare := {| p_supplier := None; p_status := p_status params;
                    p_dateFrom := p_dateFrom params; p_dateTo := p_dateTo params;
                    p_search := p_search params |} in
     VersionA.list date_le params db = VersionA.list date_le bare db
     /\ VersionB.list date_le params db = VersionB.list date_le bare db)
  /\ (unselective (p_status params) ->
      let bare := {| p_supplier := p_supplier params; p_status := None;
                     p_dateFrom := p_dateFrom params; p_dateTo := p_dateTo params;
                     p_search := p_search params |} in
      VersionA.list date_le params db = VersionA.list date_le bare db
      /\ VersionB.list date_le params db = VersionB.list date_le bare db).
Proof.
  split; intros Hu; cbv zeta.
  - assert (E : whereClauses params
                = whereClauses {| p_supplier := None; p_status := p_status params;
                                  p_dateFrom := p_dateFrom params;
                                  p_dateTo := p_dateTo params;
                                  p_search := p_search params |}).
    { rewrite !whereClauses_parts. cbn [p_supplier p_status p_dateFrom p_dateTo].
      destruct Hu as [-> | [-> | ->]]; reflexivity. }
    unfold VersionA.list, VersionB.list. rewrite E. split; reflexivity.
  - assert (E : whereClauses params
                = whereClauses {| p_supplier := p_supplier params; p_status := None;
                                  p_dateFrom := p_dateFrom params;
                                  p_dateTo := p_dateTo params;
                                  p_search := p_search params |}).
    { rewrite !whereClauses_parts. cbn [p_supplier p_status p_dateFrom p_dateTo].
      destruct Hu as [-> | [-> | ->]]; reflexivity. }
    unfold VersionA.list, VersionB.list. rewrite E. split; reflexivity.
Qed.

Lemma unselective_filters_ignored_witness :
  let bare := {| p_supplier := None; p_status := Some "Draft";
                 p_dateFrom := None; p_dateTo := None; p_search := None |} in
  unselective (p_supplier MoreExamples.drafts)
  /\ p_status MoreExamples.drafts = Some "Draft"
  /\ VersionA.list String.leb MoreExamples.drafts MoreExamples.db_ordered
     = VersionA.list String.leb bare MoreExamples.db_ordered.
Proof.
  intros bare.
  assert (Hall : unselective (p_supplier MoreExamples.drafts))
    by (right; right; reflexivity).
  split; [exact Hall|]. split; [reflexivity|].
  exact (proj1 (proj1 (unselective_filters_ignored String.leb MoreExamples.drafts
                         MoreExamples.db_ordered) Hall)).
Defined.

(** With a primary key on [customers.id], at most one customer joins. *)
Lemma at_most_one_customer (cs : list Customer) (x : option string) :
  NoDup (map c_id cs) ->
  List.length (filter (fun c => sql_eq x (c_id c)) cs) <= 1.
Proof.
  induction cs as [|c cs IH]; simpl; intros Hnd; [lia|].
  inversion Hnd as [|? ? Hnotin Hnd']; subst.
  destruct (sql_eq x (c_id c)) eqn:E; simpl; [|apply IH, Hnd'].
  apply sql_eq_true in E.
  rewrite (ReadProps.filter_none (fun c0 => sql_eq x (c_id c0)) cs); [simpl; lia|].
  intros c' Hc'. apply sql_eq_false. intros E'. apply Hnotin.
  rewrite E in E'. injection E' as ->. apply in_map, Hc'.
Qed.

Lemma leftJoin_one_each (qs : list Quotation) (cs : list Customer) :
  NoDup (map c_id cs) ->
  map fst (leftJoin (fun q c => sql_eq (q_customerId q) (c_id c)) qs cs) = qs.
Proof.
  intros Hnd. induction qs as [|q qs IH]; [reflexivity|].
  rewrite ReadProps.leftJoin_cons, map_app, IH.
  pose proof (at_most_one_customer cs (q_customerId q) Hnd) as Hone.
  destruct (filter _ cs) as [|b [|b' bs]]; simpl in *; [reflexivity | reflexivity | lia].
Qed.

Lemma map_run_where (date_le : string -> string -> bool)
    (wc : list Clause) (rows : list (Quotation * option Customer)) :
  map fst (run_where date_le fst wc rows)
  = filter (fun q => forallb (fun c => clause_holds date_le c q) wc) (map fst rows).
Proof.
  unfold run_where. destruct wc as [|c wc].
  - simpl. symmetry. apply filter_id. reflexivity.
  - cbn [List.length Nat.ltb Nat.leb].
    induction rows as [|r rows IH]; [reflexivity|].
    cbn [filter map]. destruct (forallb _ (c :: wc)); cbn [map]; rewrite IH; reflexivity.
Qed.

(** X12.  When no two customers share an id, the note-derived [list]
    returns exactly one row for each quotation that passes the clauses:
    the quotations of its rows are, up to their order, the quotations of
    the table that pass. *)
Theorem note_derived_one_row_each (date_le : string -> string -> bool)
    (params : Params) (db : DB) :
  NoDup (map c_id (customers db)) ->
  Permutation
    (map quotation (VersionA.list date_le params db))
    (filter (fun q => forallb (fun c => clause_holds date_le c q) (whereClauses params))
            (quotations db)).
Proof.
  intros Hnd. unfold VersionA.list. cbv zeta. rewrite map_map.
  rewrite (map_ext _ fst).
  2:{ intros [q oc]. apply VersionAProps.processA_fields. }
  rewrite map_run_where, leftJoin_one_each by exact Hnd. apply Permutation_refl.
Qed.

Lemma note_derived_one_row_each_witness :
  NoDup (map c_id (customers MoreExamples.db_small))
  /\ Permutation
       (map quotation
          (VersionA.list String.leb MoreExamples.drafts MoreExamples.db_small))
       [Examples.quote_acme].
Proof.
  assert (Hnd : NoDup (map c_id (customers MoreExamples.db_small)))
    by (repeat constructor; intros []).
  split; [exact Hnd|].
  exact (note_derived_one_row_each String.leb MoreExamples.drafts
           MoreExamples.db_small Hnd).
Defined.

End FilterProps.

(** ** Who the rows of [list] name as customer and supplier *)

Module PartyProps.
Import Schema Js Listing Describe Facts ListingFacts.

Lemma js_or_truthy (a b : option string) : truthy a = true -> js_or a b = a.
Proof. intros H. unfold js_or. rewrite H. reflexivity. Qed.

(** A non-empty [name] column is the name of the object. *)
Lemma embed_name_column (c : Customer) :
  truthy (c_name c) = true -> name (embed c) = c_name c.
Proof.
  intros Ht. unfold embed; cbn [name].
  rewrite (js_or_truthy (c_name c) (c_customerName c) Ht).
  rewrite (js_or_truthy (c_name c) (c_companyName c) Ht).
  apply js_or_truthy, Ht.
Qed.

(** X13.  The object built from a customer row takes for [name] the first
    non-empty of [name], [customerName], [companyName] and [fullName], and
    for [address] the first non-empty of [address] and [billingAddress];
    when none is non-empty it takes the last of them as it is. *)
Theorem embed_first_non_empty (c : Customer) :
  name (embed c)
  = match find truthy [c_name c; c_customerName c; c_companyName c; c_fullName c] with
    | Some v => v
    | None => c_fullName c
    end
  /\ address (embed c)
     = match find truthy [c_address c; c_billingAddress c] with
       | Some v => v
       | None => c_billingAddress c
       end
  /\ (truthy (name (embed c)) = true <->
      exists v, In v [c_name c; c_customerName c; c_companyName c; c_fullName c]
                /\ truthy v = true).
Proof.
  unfold embed, js_or; cbn [name address find].
  destruct (truthy (c_name c)) eqn:E1; destruct (truthy (c_customerName c)) eqn:E2;
    destruct (truthy (c_companyName c)) eqn:E3; destruct (truthy (c_fullName c)) eqn:E4;
    destruct (truthy (c_address c)) eqn:E5; cbn [find];
    rewrite ?E1, ?E2, ?E3, ?E4, ?E5.
  all: split; [reflexivity|]; split; [destruct (truthy (c_billingAddress c)); reflexivity|].
  all: split;
    [ intros H;
      first [ exists (c_name c); split; [simpl; tauto | assumption]
            | exists (c_customerName c); split; [simpl; tauto | assumption]
            | exists (c_companyName c); split; [simpl; tauto | assumption]
            | exists (c_fullName c); split; [simpl; tauto | assumption]
            | congruence ]
    | intros (v & [<- | [<- | [<- | [<- | []]]]] & Hv); congruence ].
Qed.

(** X14.  In the note-derived [list] the [customer] of a row is the
    customer whose id is the quotation's [customerId], and is null exactly
    when the table has none; the row is marked as carrying it. *)
Theorem note_derived_customer (date_le : string -> string -> bool)
    (params : Params) (db : DB) (r : Row) :
  In r (VersionA.list date_le params db) ->
  (forall p, customer r = Some p ->
     exists c, In c (customers db)
               /\ q_customerId (quotation r) = Some (c_id c)
               /\ p = embed c)
  /\ (customer r = None <->
      forall c, In c (customers db) -> q_customerId (quotation r) <> Some (c_id c))
  /\ __customerEmbedded r = true.
Proof.
  unfold VersionA.list. cbv zeta. rewrite in_map_iff.
  intros ([q oc] & <- & Hin). apply run_where_In, leftJoin_In in Hin.
  destruct Hin as [_ Hoc].
  destruct (VersionAProps.processA_fields (suppliers db) q oc) as (Eq & _).
  rewrite Eq. unfold VersionA.process. cbn [fst snd].
  destruct (VersionA.resolve (suppliers db) (q_notes q)) as [sp sn].
  cbn [customer __customerEmbedded].
  destruct oc as [c|]; cbn [option_map].
  - destruct Hoc as [Hc Hon]. apply sql_eq_true in Hon.
    split; [intros p [= <-]; eauto|]. split; [|reflexivity].
    split; [discriminate|]. intros H. elim (H c Hc Hon).
  - split; [discriminate|]. split; [|reflexivity].
    split; [|reflexivity]. intros _ c Hc. apply sql_eq_false, Hoc, Hc.
Qed.

Lemma note_derived_customer_witness :
  In (VersionA.process (suppliers MoreExamples.db_small)
        (Examples.quote_acme, Some MoreExamples.globex))
     (VersionA.list String.leb Examples.no_params MoreExamples.db_small)
  /\ exists c, In c (customers MoreExamples.db_small)
               /\ q_customerId Examples.quote_acme = Some (c_id c)
               /\ embed MoreExamples.globex = embed c.
Proof.
  assert (Hin : In (VersionA.process (suppliers MoreExamples.db_small)
                      (Examples.quote_acme, Some MoreExamples.globex))
                   (VersionA.list String.leb Examples.no_params MoreExamples.db_small))
    by (left; reflexivity).
  split; [exact Hin|].
  exact (proj1 (note_derived_customer String.leb Examples.no_params
                  MoreExamples.db_small _ Hin) (embed MoreExamples.globex) eq_refl).
Defined.



End PartyProps.

(** ** The supplier that the notes name *)

Module SupplierMatchProps.
Import Schema Js Listing Describe VersionA Facts ListingFacts.

Lemma includes_empty (a : string) : includes a "" = true.
Proof. destruct a; reflexivity. Qed.

Lemma fuzzy_blank (extracted : string) (s : Supplier) :
  s_name s = None \/ s_name s = Some "" -> fuzzy extracted s = true.
Proof.
  intros [E | E]; unfold fuzzy; rewrite E; cbn [option_map js_or truthy toLowerCase].
  - simpl. apply includes_empty.
  - simpl. rewrite includes_empty. apply orb_true_r.
Qed.

(** What [resolve] has done when it returns a supplier object. *)
Lemma resolve_supplier (sups : Datatypes.list Supplier) (notes : option string)
    (p : Party) (sn : option string) :
  resolve sups notes = (Some p, sn) ->
  exists text group1,
    notes = Some text
    /\ Regex.match_suppliers text = Some group1
    /\ let extracted := hd "" (map trim (split "," group1)) in
       match find (fuzzy extracted) sups with
       | Some m => id p = Some (s_id m) /\ name p = s_name m /\ sn = s_name m
       | None => id p = None /\ name p = Some extracted /\ sn = Some extracted
       end.
Proof.
  unfold resolve. destruct (truthy notes); [|discriminate].
  destruct notes as [text|]; [|discriminate].
  destruct (Regex.match_suppliers text) as [g|] eqn:G; [|discriminate].
  intros H. exists text, g. split; [reflexivity|]. split; [exact G|].
  cbv zeta. destruct (find _ sups) as [m|]; injection H as <- <-; auto.
Qed.

(** X16.  A supplier row whose name is null or empty matches every
    extracted name.  So when such a row heads the supplier table, every
    row of the note-derived [list] that has a supplier object has that
    row's id in it and that row's name for [supplierName]. *)
Theorem blank_supplier_matches_all (date_le : string -> string -> bool)
    (params : Params) (db : DB) (s : Supplier) (rest : Datatypes.list Supplier) :
  s_name s = None \/ s_name s = Some "" ->
  (forall extracted, fuzzy extracted s = true)
  /\ (suppliers db = s :: rest ->
      forall r p, In r (VersionA.list date_le params db) ->
                  supplier r = Some p ->
                  id p = Some (s_id s) /\ supplierName r = s_name s).
Proof.
  intros Hblank. split; [intros e; apply fuzzy_blank, Hblank|].
  intros Htable r p Hin Hp.
  apply VersionAProps.listA_In in Hin. destruct Hin as (q & oc & _ & ->).
  destruct (VersionAProps.processA_fields (suppliers db) q oc) as (_ & Es & En).
  rewrite Es in Hp. rewrite En.
  destruct (resolve (suppliers db) (q_notes q)) as [sp sn] eqn:R.
  cbn [fst snd] in *. subst sp.
  apply resolve_supplier in R. destruct R as (text & g & _ & _ & R).
  cbv zeta in R. rewrite Htable in R. cbn [find] in R.
  rewrite (fuzzy_blank _ s Hblank) in R. destruct R as (Hid & _ & Hsn). auto.
Qed.

Lemma blank_supplier_matches_all_witness :
  s_name Examples.sup_nameless = None
  /\ fuzzy "Acme Corp" Examples.sup_nameless = true
  /\ fuzzy "Zeta" Examples.sup_nameless = true.
Proof.
  assert (Hblank : s_name Examples.sup_nameless = None \/
                   s_name Examples.sup_nameless = Some "") by (left; reflexivity).
  split; [reflexivity|].
  pose proof (proj1 (blank_supplier_matches_all String.leb Examples.no_params
                       MoreExamples.db_small Examples.sup_nameless [] Hblank)) as H.
  split; apply H.
Defined.

(** *** The extracted name carries no comma and no outer white space *)

Lemma split_first_no_sep (sep : ascii) (s h : string) (t : Datatypes.list string) :
  split sep s = h :: t -> ~ In sep (chars h).
Proof.
  revert h t. induction s as [|c s IH]; simpl; intros h t.
  - intros [= <- <-]. intros [].
  - destruct (Ascii.eqb_spec c sep) as [-> | Hne].
    + intros [= <- <-]. intros [].
    + destruct (split sep s) as [|h' t'] eqn:E.
      * intros [= <- <-]. simpl. intros [H | []]. congruence.
      * intros [= <- <-]. simpl. intros [H | H]; [congruence|].
        exact (IH h' t' eq_refl H).
Qed.

Lemma trimStart_chars (s : string) (c : ascii) :
  In c (chars (trimStart s)) -> In c (chars s).
Proof.
  induction s as [|d s IH]; simpl; [tauto|].
  destruct (is_ws d); simpl; auto.
Qed.

Lemma trimEnd_chars (s : string) (c : ascii) :
  In c (chars (trimEnd s)) -> In c (chars s).
Proof.
  induction s as [|d s IH]; simpl; [tauto|].
  destruct (trimEnd s) as [|e t] eqn:E.
  - destruct (is_ws d); simpl; tauto.
  - simpl. simpl in IH. tauto.
Qed.

Lemma trimStart_fixed (s : string) :
  match s with
  | EmptyString => True
  | String c _ => is_ws c = false
  end -> trimStart s = s.
Proof. destruct s as [|c s]; simpl; [reflexivity|]. intros ->. reflexivity. Qed.

Lemma trimStart_clean (s : string) :
  match trimStart s with
  | EmptyString => True
  | String c _ => is_ws c = false
  end.
Proof.
  induction s as [|c s IH]; simpl; [exact I|].
  destruct (is_ws c) eqn:E; [exact IH | exact E].
Qed.

Lemma trimEnd_keeps_clean (s : string) :
  match s with
  | EmptyString => True
  | String c _ => is_ws c = false
  end ->
  match trimEnd s with
  | EmptyString => True
  | String c _ => is_ws c = false
  end.
Proof.
  destruct s as [|c s]; simpl; [tauto|]. intros E.
  destruct (trimEnd s); [rewrite E|]; exact E.
Qed.

Lemma trimEnd_twice (s : string) : trimEnd (trimEnd s) = trimEnd s.
Proof.
  induction s as [|c s IH]; simpl; [reflexivity|].
  destruct (trimEnd s) as [|d t] eqn:E.
  - destruct (is_ws c) eqn:W; simpl; [reflexivity | rewrite W; reflexivity].
  - cbn [trimEnd] in *. rewrite IH. reflexivity.
Qed.

Lemma trim_twice (s : string) : trim (trim s) = trim s.
Proof.
  unfold trim.
  rewrite (trimStart_fixed (trimEnd (trimStart s))).
  - apply trimEnd_twice.
  - apply trimEnd_keeps_clean, trimStart_clean.
Qed.

(** X17.  In the note-derived [list], the supplier object whose [id] is
    null was built because no row of the supplier table matched; its name
    is the row's [supplierName], contains no comma, and has no white space
    at either end. *)
Theorem synthetic_supplier_name (date_le : string -> string -> bool)
    (params : Params) (db : DB) (r : Row) (p : Party) :
  In r (VersionA.list date_le params db) ->
  supplier r = Some p ->
  id p = None ->
  exists n,
    name p = Some n
    /\ supplierName r = Some n
    /\ ~ In ","%char (chars n)
    /\ trim n = n
    /\ (forall s, In s (suppliers db) -> fuzzy n s = false)
    /\ customerType p = Some "Supplier".
Proof.
  intros Hin Hp Hid.
  apply VersionAProps.listA_In in Hin. destruct Hin as (q & oc & _ & ->).
  destruct (VersionAProps.processA_fields (suppliers db) q oc) as (_ & Es & En).
  rewrite Es in Hp. rewrite En.
  destruct (resolve (suppliers db) (q_notes q)) as [sp sn] eqn:R.
  cbn [fst snd] in *. subst sp.
  pose proof R as R'. apply resolve_supplier in R'.
  destruct R' as (text & g & Hnotes & Hg & R'). cbv zeta in R'.
  destruct (split_cons "," g) as (h & t & Hsplit).
  rewrite Hsplit in R'. cbn [map hd] in R'.
  destruct (find (fuzzy (trim h)) (suppliers db)) as [m|] eqn:F.
  - destruct R' as (Hm & _). congruence.
  - destruct R' as (_ & Hname & Hsn). exists (trim h).
    split; [exact Hname|]. split; [exact Hsn|]. split; [|split; [|split]].
    + intros Hc. unfold trim in Hc.
      apply trimEnd_chars, trimStart_chars in Hc.
      exact (split_first_no_sep _ _ Hsplit Hc).
    + apply trim_twice.
    + intros s Hs. exact (find_none _ _ F s Hs).
    + unfold resolve in R. rewrite Hnotes in R.
      destruct (truthy (Some text)); [|discriminate].
      rewrite Hg, Hsplit in R. cbn [map hd] in R. rewrite F in R.
      injection R as <- _. reflexivity.
Qed.

Lemma synthetic_supplier_name_witness :
  In (process (suppliers MoreExamples.db_small)
        (Examples.quote_acme, Some MoreExamples.globex))
     (VersionA.list String.leb Examples.no_params MoreExamples.db_small)
  /\ exists n,
       supplierName (process (suppliers MoreExamples.db_small)
                       (Examples.quote_acme, Some MoreExamples.globex)) = Some n
       /\ ~ In ","%char (chars n)
       /\ trim n = n.
Proof.
  assert (Hin : In (process (suppliers MoreExamples.db_small)
                      (Examples.quote_acme, Some MoreExamples.globex))
                   (VersionA.list String.leb Examples.no_params MoreExamples.db_small))
    by (left; reflexivity).
  split; [exact Hin|].
  destruct (@synthetic_supplier_name String.leb Examples.no_params
              MoreExamples.db_small _ _ Hin eq_refl eq_refl)
    as (n & _ & Hsn & Hcomma & Htrim & _).
  exists n. auto.
Defined.

End SupplierMatchProps.

(** ** What the pattern of the notes matches *)

Module RegexProps.
Import Js Regex Describe.

(** A successful match has called its continuation on what is left after
    some front part of the input. *)
Lemma m_consumes {R : Type} (r : re) :
  forall (s : list ascii) (k : list ascii -> option R) (x : R),
    m r s k = Some x ->
    exists used rest, s = used ++ rest /\ k rest = Some x.
Proof.
  induction r as [|p|p|r1 IH1 r2 IH2|r1 IH1|r1 IH1]; intros s k x; cbn [m].
  - intros H. exists [], s. auto.
  - destruct s as [|c s']; [discriminate|].
    destruct (Ascii.eqb (canon c) (canon p)); [|discriminate].
    intros H. exists [c], s'. auto.
  - destruct s as [|c s']; [discriminate|].
    destruct (Ascii.eqb (canon c) (canon p)); [discriminate|].
    intros H. exists [c], s'. auto.
  - intros H. apply IH1 in H. destruct H as (u1 & s1 & -> & H).
    apply IH2 in H. destruct H as (u2 & s2 & -> & H).
    exists (u1 ++ u2), s2. rewrite app_assoc. auto.
  - destruct (m r1 s k) as [y|] eqn:E.
    + intros [= ->]. apply IH1 in E. exact E.
    + intros H. exists [], s. auto.
  - pose (loop :=
            fix star (fuel : nat) (s : list ascii) {struct fuel} : option R :=
              match fuel with
              | O => k s
              | S fuel' =>
                  match m r1 s (fun s' =>
                                  if (List.length s' <? List.length s)%nat
                                  then star fuel' s' else None) with
                  | Some x => Some x
                  | None => k s
                  end
              end).
    assert (Hloop : forall fuel s0 y,
               loop fuel s0 = Some y ->
               exists used rest, s0 = used ++ rest /\ k rest = Some y).
    { induction fuel as [|fuel IHf]; intros s0 y.
      - intros H. exists [], s0. auto.
      - change (loop (S fuel) s0)
          with (match m r1 s0 (fun s' =>
                                 if (List.length s' <? List.length s0)%nat
                                 then loop fuel s' else None) with
                | Some x => Some x
                | None => k s0
                end).
        destruct (m r1 s0 _) as [z|] eqn:E.
        + intros [= ->]. apply IH1 in E. destruct E as (u1 & s1 & -> & E).
          destruct (List.length s1 <? List.length (u1 ++ s1))%nat; [|discriminate].
          apply IHf in E. destruct E as (u2 & s2 & -> & E).
          exists (u1 ++ u2), s2. rewrite app_assoc. auto.
        + intros H. exists [], s0. auto. }
    intros H. exact (Hloop (S (List.length s)) s x H).
Qed.

Lemma lits_consumes {R : Type} (w : string) :
  forall (s : list ascii) (k : list ascii -> option R) (x : R),
    m (lits w) s k = Some x ->
    exists used rest,
      s = used ++ rest /\ k rest = Some x /\ same_letters used (chars w).
Proof.
  induction w as [|p w IH]; intros s k x; cbn [lits m].
  - intros H. exists [], s. repeat split; assumption.
  - destruct s as [|c s']; [discriminate|].
    destruct (Ascii.eqb_spec (canon c) (canon p)) as [E|_]; [|discriminate].
    intros H. apply IH in H. destruct H as (u & rest & -> & H & Hu).
    exists (c :: u), rest. repeat split; [exact H|].
    unfold same_letters in *. simpl. rewrite E. f_equal. exact Hu.
Qed.

Lemma pre_consumes {R : Type} (s : list ascii)
    (k : list ascii -> option R) (x : R) :
  m supplier_pre s k = Some x ->
  exists word rest,
    s = word ++ rest /\ k rest = Some x /\ introduces_suppliers word.
Proof.
  unfold supplier_pre. cbn [m]. intros H.
  apply lits_consumes in H. destruct H as (u1 & s1 & -> & H & Hu1).
  assert (Hleft : forall s2, m (lits ": ") s2 k = Some x ->
            exists word rest,
              u1 ++ s2 = word ++ rest /\ k rest = Some x
              /\ introduces_suppliers word).
  { intros s2 H2. apply lits_consumes in H2.
    destruct H2 as (u3 & rest & -> & H2 & Hu3).
    exists (u1 ++ u3), rest. rewrite <- app_assoc. repeat split; [exact H2|].
    left. unfold same_letters in *. rewrite map_app, Hu1, Hu3. reflexivity. }
  destruct s1 as [|c s1']; [exact (Hleft [] H)|].
  destruct (Ascii.eqb_spec (canon c) (canon "s")) as [Ec|_];
    [|exact (Hleft (c :: s1') H)].
  destruct (m (lits ": ") s1' k) as [y|] eqn:E; [|exact (Hleft (c :: s1') H)].
  injection H as ->.
  apply lits_consumes in E. destruct E as (u3 & rest & -> & E & Hu3).
  exists (u1 ++ c :: u3), rest. rewrite <- app_assoc. repeat split; [exact E|].
  right. unfold same_letters in *. rewrite map_app. simpl map at 2.
  rewrite Hu1, Hu3, Ec. reflexivity.
Qed.

Lemma notchar_consumes {R : Type} (p : ascii) (s : list ascii)
    (k : list ascii -> option R) (x : R) :
  m (NotChar p) s k = Some x ->
  exists c s', s = c :: s' /\ canon c <> canon p /\ k s' = Some x.
Proof.
  cbn [m]. destruct s as [|c s']; [discriminate|].
  destruct (Ascii.eqb_spec (canon c) (canon p)) as [_|Hc]; [discriminate|].
  intros H. exists c, s'. auto.
Qed.

Lemma group_consumes {R : Type} (s : list ascii)
    (k : list ascii -> option R) (x : R) :
  m supplier_group s k = Some x ->
  exists c used rest,
    s = c :: used ++ rest /\ c <> ","%char /\ k rest = Some x.
Proof.
  unfold supplier_group, Plus.
  change (m (Seq (Seq (NotChar ",") (Star (NotChar ","))) ?b) s k)
    with (m (NotChar ",") s
            (fun s1 => m (Star (NotChar ",")) s1 (fun s2 => m b s2 k))).
  intros H. apply notchar_consumes in H. destruct H as (c & s' & -> & Hc & H).
  apply (m_consumes (Star (NotChar ","))) in H.
  destruct H as (u1 & s1 & -> & H).
  apply m_consumes in H. destruct H as (u2 & s2 & -> & H).
  exists c, (u1 ++ u2), s2. rewrite <- app_assoc.
  repeat split; [|exact H]. intros ->. apply Hc. reflexivity.
Qed.

Lemma firstn_minus {A : Type} (a b : list A) :
  firstn (List.length (a ++ b) - List.length b) (a ++ b) = a.
Proof.
  rewrite length_app. replace (List.length a + List.length b - List.length b)
    with (List.length a + 0) by lia.
  rewrite firstn_app_2. simpl. apply app_nil_r.
Qed.

Lemma match_here_sound (s g : list ascii) :
  match_here supplier_pre supplier_group s = Some g ->
  exists word c g' after,
    s = word ++ g ++ after
    /\ introduces_suppliers word
    /\ g = c :: g' /\ c <> ","%char.
Proof.
  unfold match_here. intros H.
  apply pre_consumes in H. destruct H as (word & s1 & -> & H & Hword).
  apply group_consumes in H. destruct H as (c & used & rest & -> & Hc & H).
  change (c :: used ++ rest) with ((c :: used) ++ rest) in H.
  rewrite firstn_minus in H. injection H as <-.
  exists word, c, used, rest. repeat split; assumption.
Qed.

Lemma search_sound (pre body : re) (s g : list ascii) :
  search pre body s = Some g ->
  exists before s', s = before ++ s' /\ match_here pre body s' = Some g.
Proof.
  induction s as [|a s IH]; cbn [search].
  - destruct (match_here pre body []) eqn:E; [|discriminate].
    intros [= ->]. exists [], []. auto.
  - destruct (match_here pre body (a :: s)) eqn:E.
    + intros [= ->]. exists [], (a :: s). auto.
    + intros H. apply IH in H. destruct H as (b & s' & -> & H).
      exists (a :: b), s'. auto.
Qed.

(** X18.  When the pattern matches the notes, the notes contain, in any
    letter case, [supplier: ] or [suppliers: ] directly followed by the
    captured group, and the group starts with a character that is not a
    comma. *)
Theorem notes_match_sound (text group1 : string) :
  match_suppliers text = Some group1 ->
  exists before word after c rest,
    chars text = before ++ word ++ chars group1 ++ after
    /\ introduces_suppliers word
    /\ group1 = String c rest
    /\ c <> ","%char.
Proof.
  unfold match_suppliers. destruct (search _ _ _) as [g|] eqn:E; [|discriminate].
  intros [= <-]. apply search_sound in E. destruct E as (before & s' & Htext & E).
  apply match_here_sound in E.
  destruct E as (word & c & g' & after & -> & Hword & -> & Hc).
  exists before, word, after, c, (string_of_list_ascii g').
  unfold chars. rewrite Htext. cbn [string_of_list_ascii].
  split; [|auto].
  change (list_ascii_of_string (String c (string_of_list_ascii g')))
    with (c :: list_ascii_of_string (string_of_list_ascii g')).
  rewrite list_ascii_of_string_of_list_ascii. reflexivity.
Qed.

Lemma notes_match_sound_witness :
  match_suppliers "Suppliers: Acme Corp, Beta Inc" = Some "Acme Corp, Beta Inc"
  /\ exists c rest, "Acme Corp, Beta Inc" = String c rest /\ c <> ","%char.
Proof.
  assert (E : match_suppliers "Suppliers: Acme Corp, Beta Inc"
              = Some "Acme Corp, Beta Inc") by (vm_compute; reflexivity).
  split; [exact E|].
  destruct (notes_match_sound _ E) as (_ & _ & _ & c & rest & _ & _ & Hg & Hc).
  exists c, rest. auto.
Defined.

(** *** The converse: a text of that shape is matched *)

Lemma star_total {R : Type} (r : re) (s : list ascii)
    (k : list ascii -> option R) :
  (forall s', k s' <> None) -> m (Star r) s k <> None.
Proof.
  intros Hk. cbn [m]. destruct (m r s _); [discriminate | apply Hk].
Qed.

Lemma lits_complete {R : Type} (w : string) :
  forall (used rest : list ascii) (k : list ascii -> option R),
    same_letters used (chars w) ->
    m (lits w) (used ++ rest) k = k rest.
Proof.
  unfold same_letters.
  induction w as [|p w IH]; intros used rest k Hu; cbn [lits m].
  - destruct used; [reflexivity | discriminate].
  - destruct used as [|c used]; [discriminate|].
    simpl in Hu. injection Hu as Hc Hu. cbn [app].
    rewrite Hc, Ascii.eqb_refl. apply IH. exact Hu.
Qed.

Lemma canon_comma (c : ascii) : canon c = ","%char -> c = ","%char.
Proof.
  destruct c as [[] [] [] [] [] [] [] []]; vm_compute; intros H;
    first [reflexivity | discriminate].
Qed.

Lemma pre_complete {R : Type} (word rest : list ascii)
    (k : list ascii -> option R) :
  introduces_suppliers word -> k rest <> None ->
  m supplier_pre (word ++ rest) k <> None.
Proof.
  unfold supplier_pre, introduces_suppliers, same_letters.
  change (m (Seq (lits "supplier") (Seq (Opt (Lit "s")) (lits ": "))) (word ++ rest) k)
    with (m (lits "supplier") (word ++ rest)
            (fun s1 => match m (Lit "s") s1 (fun s2 => m (lits ": ") s2 k) with
                       | Some x => Some x
                       | None => m (lits ": ") s1 k
                       end)).
  intros [Hw | Hw] Hk.
  - change (map canon (chars "supplier: "))
      with (map canon (chars "supplier") ++ map canon (chars ": ")) in Hw.
    apply map_eq_app in Hw. destruct Hw as (w1 & w2 & -> & H1 & H2).
    rewrite <- app_assoc, (@lits_complete _ "supplier" w1 _ _ H1).
    destruct (m (Lit "s") _ _); [discriminate|].
    rewrite (@lits_complete _ ": " w2 _ _ H2). exact Hk.
  - change (map canon (chars "suppliers: "))
      with (map canon (chars "supplier") ++ canon "s" :: map canon (chars ": ")) in Hw.
    apply map_eq_app in Hw. destruct Hw as (w1 & w2' & -> & H1 & H2).
    destruct w2' as [|c w2]; [discriminate|]. simpl in H2. injection H2 as Hc H2.
    rewrite <- app_assoc, (@lits_complete _ "supplier" w1 _ _ H1).
    cbn [app m]. rewrite Hc, Ascii.eqb_refl.
    rewrite (@lits_complete _ ": " w2 _ _ H2).
    destruct (k rest); [discriminate | congruence].
Qed.

Lemma group_complete {R : Type} (c : ascii) (rest : list ascii)
    (k : list ascii -> option R) :
  c <> ","%char -> (forall s', k s' <> None) ->
  m supplier_group (c :: rest) k <> None.
Proof.
  intros Hc Hk. unfold supplier_group, Plus.
  change (m (Seq (Seq (NotChar ",") (Star (NotChar ","))) ?b) (c :: rest) k)
    with (if Ascii.eqb (canon c) (canon ",")
          then None
          else m (Star (NotChar ",")) rest (fun s2 => m b s2 k)).
  destruct (Ascii.eqb_spec (canon c) (canon ",")) as [E|_].
  - elim Hc. apply canon_comma. exact E.
  - apply star_total. intros s'. apply star_total. exact Hk.
Qed.

Lemma search_complete (pre body : re) (before s : list ascii) :
  match_here pre body s <> None -> search pre body (before ++ s) <> None.
Proof.
  intros H. induction before as [|a before IH]; cbn [app].
  - destruct s; cbn [search]; destruct (match_here pre body _);
      [discriminate | congruence | discriminate | congruence].
  - cbn [search]. destruct (match_here pre body (a :: before ++ s));
      [discriminate | exact IH].
Qed.

(** X19.  Conversely, notes that contain [supplier: ] or [suppliers: ] in
    any letter case, directly followed by a character that is not a comma,
    are matched, and then the note-derived resolution builds a supplier
    object whatever the supplier table holds. *)
Theorem notes_match_complete (before word rest : list ascii) (c : ascii) :
  introduces_suppliers word ->
  c <> ","%char ->
  let text := string_of_list_ascii (before ++ word ++ c :: rest) in
  match_suppliers text <> None
  /\ forall sups, fst (VersionA.resolve sups (Some text)) <> None.
Proof.
  intros Hword Hc. cbv zeta.
  assert (Hm : match_suppliers (string_of_list_ascii (before ++ word ++ c :: rest))
               <> None).
  { unfold match_suppliers. rewrite list_ascii_of_string_of_list_ascii.
    destruct (search supplier_pre supplier_group (before ++ word ++ c :: rest)) eqn:E;
      [discriminate|].
    exfalso. revert E. apply search_complete. unfold match_here.
    apply pre_complete; [exact Hword|].
    apply group_complete; [exact Hc | discriminate]. }
  split; [exact Hm|].
  intros sups. unfold VersionA.resolve.
  assert (Ht : truthy (Some (string_of_list_ascii (before ++ word ++ c :: rest))) = true).
  { unfold truthy. apply negb_true_iff, String.eqb_neq. intros E.
    apply (f_equal list_ascii_of_string) in E.
    rewrite list_ascii_of_string_of_list_ascii in E. simpl in E.
    destruct before; [destruct word|]; discriminate. }
  rewrite Ht.
  destruct (match_suppliers _) as [g|]; [|congruence].
  destruct (find _ sups); discriminate.
Qed.

Lemma notes_match_complete_witness :
  introduces_suppliers (chars "SUPPLIER: ")
  /\ match_suppliers "Quote from SUPPLIER: Zeta" <> None.
Proof.
  assert (Hword : introduces_suppliers (chars "SUPPLIER: ")) by (left; reflexivity).
  assert (Hc : "Z"%char <> ","%char) by discriminate.
  split; [exact Hword|].
  exact (proj1 (@notes_match_complete (chars "Quote from ") (chars "SUPPLIER: ")
                  (chars "eta") "Z" Hword Hc)).
Defined.

End RegexProps.

(** ** The customer list: bounds and failures *)

Module CustomerListProps.
Import Js Store CustomerRoutes CustomerRoutesProps.
Local Open Scope Z_scope.

Section WithStorage.
Context {Customer : Type} {storage : Storage Customer}.

(** X20.  In a [200] response whose limit, offset and total are safe
    integers, with a positive limit: a total that is not negative gives a
    page count that is not negative, and zero exactly for a total of zero;
    an offset that is not negative gives a page of one or more, and page
    one exactly when the offset is below the limit.  A [limit] parameter
    that parses to zero is replaced by 50. *)
Theorem pagination_bounds (q : Query) (customers : list Customer)
    (pg : Pagination) :
  fst (list_customers q) = Json200 customers pg ->
  let off := num_or (parseInt (qp_offset q)) 0 in
  Describe.safe_integer (limit pg) ->
  Describe.safe_integer off ->
  Describe.safe_integer (total pg) ->
  (parseInt (qp_limit q) = Some 0 -> limit pg = 50)
  /\ (0 < limit pg ->
      (0 <= total pg -> 0 <= pages pg /\ (pages pg = 0 <-> total pg = 0))
      /\ (0 <= off -> 1 <= page pg /\ (page pg = 1 <-> off < limit pg))).
Proof.
  intros Hok. apply list_customers_pagination in Hok. cbv zeta in *.
  set (lim := num_or (parseInt (qp_limit q)) 50) in *.
  set (off := num_or (parseInt (qp_offset q)) 0) in *.
  assert (Hl : limit pg = lim) by (rewrite Hok; reflexivity).
  assert (Hpage : page pg = off / lim + 1)
    by (rewrite Hok; cbn [page]; rewrite floor_div_Zdiv; reflexivity).
  assert (Hpages : pages pg = - ((- total pg) / lim))
    by (rewrite Hok at 1; cbn [pages]; rewrite ceil_div_Zdiv; reflexivity).
  intros _ _ _.
  split.
  - intros E. rewrite Hl. subst lim. rewrite E. reflexivity.
  - rewrite Hl. intros Hpos. split.
    + intros Htot. rewrite Hpages.
      pose proof (Z.mul_div_le (- total pg) lim Hpos).
      pose proof (Z.mul_succ_div_gt (- total pg) lim Hpos).
      split; [nia|]. split; intros; nia.
    + intros Hoff. rewrite Hpage.
      pose proof (Z.mul_div_le off lim Hpos).
      pose proof (Z.mul_succ_div_gt off lim Hpos).
      split; [nia|]. split; intros; nia.
Qed.


End WithStorage.

Lemma pagination_bounds_witness :
  let pg := {| page := 3; limit := 20; total := 3; pages := 1 |} in
  fst (list_customers (storage := Examples.sample_storage)
         (Examples.query (Some "20") (Some "45") (Some "glo") None))
  = Json200 ["Initech"; "Globex"]%string pg
  /\ Describe.safe_integer (limit pg) /\ Describe.safe_integer 45
  /\ Describe.safe_integer (total pg)
  /\ 0 <= pages pg
  /\ 1 <= page pg.
Proof.
  intros pg.
  assert (Hok : fst (list_customers (storage := Examples.sample_storage)
                       (Examples.query (Some "20") (Some "45") (Some "glo") None))
                = Json200 ["Initech"; "Globex"]%string pg)
    by reflexivity.
  assert (Hl : Describe.safe_integer (limit pg))
    by (unfold Describe.safe_integer; simpl; lia).
  assert (Ho : Describe.safe_integer 45) by (unfold Describe.safe_integer; lia).
  assert (Ht : Describe.safe_integer (total pg))
    by (unfold Describe.safe_integer; simpl; lia).
  split; [exact Hok|]. split; [exact Hl|]. split; [exact Ho|]. split; [exact Ht|].
  pose proof (@pagination_bounds string Examples.sample_storage _ _ _ Hok Hl Ho Ht) as H.
  cbv zeta in H. destruct H as (_ & H).
  assert (Hpos : 0 < limit pg) by (simpl; lia).
  destruct (H Hpos) as (Htot & Hoff).
  split.
  - apply Htot. simpl. lia.
  - apply Hoff. vm_compute. discriminate.
Defined.


End CustomerListProps.

(** ** The other customer handlers *)

Module CustomerHandlersProps.
Import Js CustomerHandlers Describe.

Section WithEnv.
Context {Customer Stats Body Data Partial : Type}
        {env : Env Customer Stats Body Data Partial}.

(** X22.  [POST] and [PUT] ask the storage only for a body that passed
    validation, and at most once.  They answer [201] (or [200] for [PUT])
    exactly when nothing was thrown, [400] exactly when a validation error
    was thrown, [409] exactly when an [Error] other than that was thrown
    whose message contains [already exists], and [500] exactly when an
    [Error] without these words in its message, or a value that is no
    [Error], was thrown; the [409] carries the message of the error, the
    [500] only a fixed one. *)
Theorem write_handlers_respond (id : string) (body : Body) :
  (* what is asked of the storage *)
  (snd (post_customer body)
   = match parse body with
     | Returned data => [CallCreateCustomer data]
     | Threw _ => []
     end)
  /\ (snd (put_customer id body)
      = match parse_partial body with
        | Returned data => [CallUpdateCustomer id data]
        | Threw _ => []
        end)
  (* the status, by what was thrown *)
  /\ (status (fst (post_customer body)) = 201 <-> post_thrown body = None)
  /\ (status (fst (put_customer id body)) = 200 <-> put_thrown id body = None)
  /\ (forall errors,
        post_thrown body = Some (ZodError errors) <->
        fst (post_customer body) = Json400 "Invalid customer data" errors)
  /\ (forall errors,
        put_thrown id body = Some (ZodError errors) <->
        fst (put_customer id body) = Json400 "Invalid customer data" errors)
  /\ (forall message,
        post_thrown body = Some (ErrorObject message)
        /\ includes message "already exists" = true <->
        fst (post_customer body) = Json409 "Duplicate customer" message)
  /\ (forall message,
        put_thrown id body = Some (ErrorObject message)
        /\ includes message "already exists" = true <->
        fst (put_customer id body) = Json409 "Duplicate customer" message)
  /\ (forall message,
        fst (post_customer body) = Json500 message ->
        message = "Failed to create customer")
  /\ (forall message,
        fst (put_customer id body) = Json500 message ->
        message = "Failed to update customer")
  /\ (fst (post_customer body) = Json500 "Failed to create customer" <->
      (exists message,
         post_thrown body = Some (ErrorObject message)
         /\ includes message "already exists" = false)
      \/ post_thrown body = Some OtherValue)
  /\ (fst (put_customer id body) = Json500 "Failed to update customer" <->
      (exists message,
         put_thrown id body = Some (ErrorObject message)
         /\ includes message "already exists" = false)
      \/ put_thrown id body = Some OtherValue).
Proof.
  unfold post_customer, put_customer, post_thrown, put_thrown, on_write_error.
  split; [destruct (parse body) as [d|t]; [destruct (createCustomer d)|]; reflexivity|].
  split; [destruct (parse_partial body) as [d|t];
          [destruct (updateCustomer id d)|]; reflexivity|].
  assert (Hpost :
    forall (D : Type) (o : outcome D) (f : D -> outcome Customer)
           (mk : Customer -> Response Customer Stats) (code : nat)
           (call : D -> Call Data Partial) (fallback : string),
      (forall c, status (mk c) = code) -> code <> 400 -> code <> 409 -> code <> 500 ->
      (forall c errors, mk c <> Json400 "Invalid customer data" errors) ->
      (forall c message, mk c <> Json409 "Duplicate customer" message) ->
      (forall c message, mk c <> Json500 message) ->
      let thrown :=
        match o with
        | Threw t => Some t
        | Returned d => match f d with Threw t => Some t | Returned _ => None end
        end in
      let answer :=
        fst match o with
            | Returned d =>
                match f d with
                | Returned c => (mk c, [call d])
                | Threw t =>
                    (match t with
                     | ZodError errors => Json400 "Invalid customer data" errors
                     | ErrorObject message =>
                         if includes message "already exists"
                         then Json409 "Duplicate customer" message
                         else Json500 fallback
                     | OtherValue => Json500 fallback
                     end, [call d])
                end
            | Threw t =>
                (match t with
                 | ZodError errors => Json400 "Invalid customer data" errors
                 | ErrorObject message =>
                     if includes message "already exists"
                     then Json409 "Duplicate customer" message
                     else Json500 fallback
                 | OtherValue => Json500 fallback
                 end, [])
            end in
      (status answer = code <-> thrown = None)
      /\ (forall errors, thrown = Some (ZodError errors) <->
                         answer = Json400 "Invalid customer data" errors)
      /\ (forall message,
            thrown = Some (ErrorObject message)
            /\ includes message "already exists" = true <->
            answer = Json409 "Duplicate customer" message)
      /\ (forall message, answer = Json500 message -> message = fallback)
      /\ (answer = Json500 fallback <->
          (exists message,
             thrown = Some (ErrorObject message)
             /\ includes message "already exists" = false)
          \/ thrown = Some OtherValue)).
  { intros D o f mk code call fallback Hcode H4 H9 H5 Hn4 Hn9 Hn5. cbv zeta.
    assert (Hthrown : forall t : Thrown,
      let a := match t with
               | ZodError errors => Json400 (Customer := Customer) (Stats := Stats)
                                            "Invalid customer data" errors
               | ErrorObject message =>
                   if includes message "already exists"
                   then Json409 "Duplicate customer" message
                   else Json500 fallback
               | OtherValue => Json500 fallback
               end in
      (status a = code <-> Some t = None)
      /\ (forall errors, Some t = Some (ZodError errors) <->
                         a = Json400 "Invalid customer data" errors)
      /\ (forall message,
            Some t = Some (ErrorObject message)
            /\ includes message "already exists" = true <->
            a = Json409 "Duplicate customer" message)
      /\ (forall message, a = Json500 message -> message = fallback)
      /\ (a = Json500 fallback <->
          (exists message,
             Some t = Some (ErrorObject message)
             /\ includes message "already exists" = false)
          \/ Some t = Some OtherValue)).
    { intros [errs|msg|]; cbv zeta.
      - split; [split; [simpl; congruence | discriminate]|].
        split; [intros e; split; intros [= ->]; reflexivity|].
        split; [intros m; split; [intros ([=] & _) | discriminate]|].
        split; [discriminate|].
        split; [discriminate | intros [(m & [=] & _) | [=]]].
      - destruct (includes msg "already exists") eqn:E.
        + split; [split; [simpl; congruence | discriminate]|].
          split; [intros e; split; discriminate|].
          split; [intros m; split;
                  [intros ([= ->] & _); reflexivity | intros [= ->]; auto]|].
          split; [discriminate|].
          split; [discriminate|].
          intros [(m & Hm & H) | [=]]. injection Hm as ->. congruence.
        + split; [split; [simpl; congruence | discriminate]|].
          split; [intros e; split; discriminate|].
          split; [intros m; split; [intros ([= ->] & H); congruence | discriminate]|].
          split; [intros m [= <-]; reflexivity|].
          split; [|intros _; reflexivity].
          intros _. left. exists msg. split; [reflexivity | exact E].
      - split; [split; [simpl; congruence | discriminate]|].
        split; [intros e; split; discriminate|].
        split; [intros m; split; [intros ([=] & _) | discriminate]|].
        split; [intros m [= <-]; reflexivity|].
        split; [intros _; right; reflexivity | intros _; reflexivity]. }
    destruct o as [d|t]; [destruct (f d) as [c|t]|]; cbn [fst].
    - split; [split; [reflexivity | intros _; apply Hcode]|].
      split; [intros e; split; [discriminate | intros H; elim (Hn4 _ _ H)]|].
      split; [intros m; split; [intros ([=] & _) | intros H; elim (Hn9 _ _ H)]|].
      split; [intros m H; elim (Hn5 _ _ H)|].
      split; [intros H; elim (Hn5 _ _ H) | intros [(m & [=] & _) | [=]]].
    - apply Hthrown.
    - apply Hthrown. }
  assert (Hp := Hpost Data (parse body) createCustomer
                  (fun c => Json201 c) 201%nat
                  (fun d => CallCreateCustomer d) "Failed to create customer"
                  (fun c => eq_refl)).
  assert (Hu := Hpost Partial (parse_partial body) (updateCustomer id)
                  (fun c => Json200 c) 200%nat
                  (fun d => CallUpdateCustomer id d) "Failed to update customer"
                  (fun c => eq_refl)).
  cbv zeta in Hp, Hu.
  destruct Hp as (P1 & P2 & P3 & P4 & P5);
    [discriminate | discriminate | discriminate
     | intros; discriminate | intros; discriminate | intros; discriminate |].
  destruct Hu as (U1 & U2 & U3 & U4 & U5);
    [discriminate | discriminate | discriminate
     | intros; discriminate | intros; discriminate | intros; discriminate |].
  split; [exact P1|]. split; [exact U1|]. split; [exact P2|].
  split; [exact U2|]. split; [exact P3|]. split; [exact U3|].
  split; [exact P4|]. split; [exact U4|].
  split; [exact P5 | exact U5].
Qed.

(** X23.  The read handlers answer [404] exactly when the storage returns
    no customer and [500] exactly when it throws, with a message that is
    fixed for the route; otherwise [200] with what the storage returned.
    Each asks the storage once. *)
Theorem read_handlers_respond (id : string) :
  (status (fst (get_customer id)) = 404 <-> getCustomer id = Returned None)
  /\ (status (fst (get_customer_details id)) = 404 <->
      getCustomerDetails id = Returned None)
  /\ ((exists t, getCustomer id = Threw t) <->
      fst (get_customer id) = Json500 "Failed to fetch customer")
  /\ ((exists t, getCustomerDetails id = Threw t) <->
      fst (get_customer_details id) = Json500 "Failed to fetch customer details")
  /\ ((exists t, getCustomerStats = Threw t) <->
      fst get_stats = Json500 "Failed to fetch customer statistics")
  /\ (forall c, getCustomer id = Returned (Some c) <->
                fst (get_customer id) = Json200 c)
  /\ (forall c, getCustomerDetails id = Returned (Some c) <->
                fst (get_customer_details id) = Json200 c)
  /\ (forall st, getCustomerStats = Returned st <-> fst get_stats = Json200Stats st)
  /\ snd (get_customer id) = [CallGetCustomer id]
  /\ snd (get_customer_details id) = [CallGetCustomerDetails id]
  /\ snd get_stats = [CallGetCustomerStats].
Proof.
  unfold get_customer, get_customer_details, get_stats.
  destruct (getCustomer id) as [[c|]|t];
    destruct (getCustomerDetails id) as [[c'|]|t'];
    destruct getCustomerStats as [st|t''];
    cbn [fst snd status].
  all: repeat split; try discriminate; try reflexivity; try congruence.
  all: try (intros (x & [=])); try (intros [= ->]; reflexivity);
    try (intros _; eexists; reflexivity).
Qed.

End WithEnv.

Lemma write_handlers_respond_witness :
  post_thrown (env := MoreExamples.sample_env) "Globex"
  = Some (ErrorObject "Customer with this name already exists")
  /\ includes "Customer with this name already exists" "already exists" = true
  /\ fst (post_customer (env := MoreExamples.sample_env) "Globex")
     = Json409 "Duplicate customer" "Customer with this name already exists".
Proof.
  assert (Ht : post_thrown (env := MoreExamples.sample_env) "Globex"
               = Some (ErrorObject "Customer with this name already exists"))
    by reflexivity.
  assert (Hi : includes "Customer with this name already exists" "already exists"
               = true) by reflexivity.
  split; [exact Ht|]. split; [exact Hi|].
  destruct (write_handlers_respond (env := MoreExamples.sample_env) "c1" "Globex")
    as (_ & _ & _ & _ & _ & _ & H & _).
  apply H. split; [exact Ht | exact Hi].
Defined.

Lemma read_handlers_respond_witness :
  getCustomer (Env := MoreExamples.sample_env) "c9" = Returned None
  /\ status (fst (get_customer (env := MoreExamples.sample_env) "c9")) = 404.
Proof.
  assert (Hnone : getCustomer (Env := MoreExamples.sample_env) "c9" = Returned None)
    by reflexivity.
  split; [exact Hnone|].
  destruct (read_handlers_respond (env := MoreExamples.sample_env) "c9") as (H & _).
  apply H. exact Hnone.
Defined.

End CustomerHandlersProps.

(** ** [getById] against the join-derived [list] *)

Module ConsistencyProps.
Import Schema Js Listing QuoteCrud Describe Facts ListingFacts.

Lemma unique_by_key {A : Type} (key : A -> string) (l : list A) (a b : A) :
  NoDup (map key l) -> In a l -> In b l -> key a = key b -> a = b.
Proof.
  induction l as [|x l IH]; simpl; intros Hnd Ha Hb E; [destruct Ha|].
  inversion Hnd as [|? ? Hnotin Hnd']; subst.
  destruct Ha as [<- | Ha]; destruct Hb as [<- | Hb].
  - reflexivity.
  - elim Hnotin. rewrite E. apply in_map, Hb.
  - elim Hnotin. rewrite <- E. apply in_map, Ha.
  - apply IH; assumption.
Qed.

(** X24.  With unique ids on quotations and customers, [getById] at the id
    of a row of the join-derived [list] returns that row's quotation, and
    its [supplierName] is the [name] column of the customer the row has
    for supplier, or null when the row has none.  So the two agree on the
    name exactly where that column is not empty; where it is empty or
    null, [list] falls back on the other name fields or on
    [Unknown Supplier] and [getById] does not. *)
Theorem getById_agrees_with_list (date_le : string -> string -> bool)
    (params : Params) (db : DB) (r : Row) :
  NoDup (map q_id (quotations db)) ->
  NoDup (map c_id (customers db)) ->
  In r (VersionB.list date_le params db) ->
  exists v,
    getById db (q_id (quotation r)) = Some v
    /\ v_quotation v = quotation r
    /\ (supplier r = None -> v_supplierName v = None)
    /\ (forall c, In c (customers db) ->
          q_customerId (quotation r) = Some (c_id c) ->
          supplier r = Some (embed c)
          /\ v_supplierName v = c_name c
          /\ (truthy (c_name c) = true -> supplierName r = v_supplierName v)
          /\ (truthy (c_name c) = false -> supplierName r <> v_supplierName v)).
Proof.
  intros Hq Hc Hin. apply VersionBProps.listB_In in Hin.
  destruct Hin as ([[[q os] oso] oc] & -> & Hqin & Hs).
  unfold VersionB.row_quotation, VersionB.row_supplier in Hqin, Hs.
  cbn [fst snd] in Hqin, Hs.
  destruct (VersionBProps.processB_fields (q, os, oso, oc)) as (Eq & Es & En).
  unfold VersionB.row_quotation, VersionB.row_supplier in Eq, Es, En.
  cbn [fst snd] in Eq, Es, En. rewrite Eq, Es, En. clear Eq Es En.
  rewrite ReadProps.getById_find.
  destruct (find (fun q0 => String.eqb (q_id q0) (q_id q)) (quotations db))
    as [q'|] eqn:F.
  2:{ exfalso. pose proof (find_none _ _ F q Hqin) as H. cbv beta in H.
      rewrite String.eqb_refl in H. discriminate. }
  apply find_some in F. destruct F as [Hq' E']. apply String.eqb_eq in E'.
  assert (q' = q) by (apply (unique_by_key q_id (quotations db)); assumption).
  subst q'. exists (view_of db q). split; [reflexivity|]. split; [reflexivity|].
  unfold view_of, joined_name. cbn [v_supplierName].
  destruct os as [c0|]; cbn [option_map].
  - destruct Hs as [Hc0 Hid0]. split; [discriminate|].
    intros c Hcin Hid.
    assert (c = c0).
    { apply (unique_by_key c_id (customers db)); try assumption. congruence. }
    subst c0.
    destruct (find _ (customers db)) as [c'|] eqn:Fc.
    2:{ exfalso. pose proof (find_none _ _ Fc c Hcin) as H. cbv beta in H.
        apply sql_eq_false in H. contradiction. }
    apply find_some in Fc. destruct Fc as [Hc' Ec']. apply sql_eq_true in Ec'.
    assert (c' = c).
    { apply (unique_by_key c_id (customers db)); try assumption. congruence. }
    subst c'. split; [reflexivity|]. split; [reflexivity|].
    split.
    + intros Ht. rewrite (PartyProps.embed_name_column c Ht).
      apply PartyProps.js_or_truthy, Ht.
    + intros Hf. unfold js_or. destruct (truthy (name (embed c))) eqn:Tn.
      * intros E. rewrite E, Hf in Tn. discriminate.
      * intros E. rewrite <- E in Hf. discriminate.
  - split; [|intros c Hcin Hid; elim (Hs c Hcin Hid)].
    intros _.
    rewrite (find_all_false (fun c => sql_eq (q_customerId q) (c_id c)) (customers db));
      [reflexivity|].
    intros c Hcin. apply sql_eq_false, Hs, Hcin.
Qed.

Lemma getById_agrees_with_list_witness :
  NoDup (map q_id (quotations MoreExamples.db_small))
  /\ NoDup (map c_id (customers MoreExamples.db_small))
  /\ In (VersionB.process (Examples.quote_acme, Some MoreExamples.globex, None, None))
        (VersionB.list String.leb Examples.no_params MoreExamples.db_small)
  /\ exists v, getById MoreExamples.db_small "q1" = Some v
               /\ v_quotation v = Examples.quote_acme.
Proof.
  assert (Hq : NoDup (map q_id (quotations MoreExamples.db_small)))
    by (repeat constructor; intros []).
  assert (Hc : NoDup (map c_id (customers MoreExamples.db_small)))
    by (repeat constructor; intros []).
  assert (Hin : In (VersionB.process
                      (Examples.quote_acme, Some MoreExamples.globex, None, None))
                   (VersionB.list String.leb Examples.no_params MoreExamples.db_small))
    by (left; reflexivity).
  split; [exact Hq|]. split; [exact Hc|]. split; [exact Hin|].
  destruct (@getById_agrees_with_list String.leb Examples.no_params
              MoreExamples.db_small _ Hq Hc Hin) as (v & Hv & Hvq & _).
  exists v. split; [exact Hv | exact Hvq].
Defined.

End ConsistencyProps.

(** ** The filters object of the customer list *)

Module FiltersObjectProps.
Import Js Store CustomerRoutes.

Lemma get_drop_undefined (kvs : list (string * option string))
    (key v : string) :
  NoDup (map fst kvs) ->
  (get key (drop_undefined kvs) = Some v <-> In (key, Some v) kvs).
Proof.
  induction kvs as [|[k o] rest IH]; simpl; intros Hnd.
  - split; [discriminate | tauto].
  - inversion Hnd as [|? ? Hnotin Hnd']; subst. specialize (IH Hnd').
    destruct o as [x|]; simpl.
    + destruct (String.eqb_spec k key) as [-> | Hne].
      * split.
        -- intros [= ->]. left. reflexivity.
        -- intros [[= ->] | Hin]; [reflexivity|].
           elim Hnotin. change key with (fst (key, Some v)). apply in_map, Hin.
      * rewrite IH. split; [tauto|]. intros [[= E _] | Hin]; [congruence | exact Hin].
    + rewrite IH. split; [tauto|]. intros [[=] | Hin]. exact Hin.
Qed.

(** X25.  The filters object that the handler builds has a key exactly for
    each of the six filter parameters that is present in the query, with
    the value given, the empty string included; [limit] and [offset] are
    not among them. *)
Theorem filters_are_the_given_parameters (q : Query) (key v : string) :
  get key (drop_undefined (raw_filters q)) = Some v
  <-> (key = "customerType" /\ qp_customerType q = Some v)
      \/ (key = "classification" /\ qp_classification q = Some v)
      \/ (key = "isActive" /\ qp_isActive q = Some v)
      \/ (key = "search" /\ qp_search q = Some v)
      \/ (key = "name" /\ qp_name q = Some v)
      \/ (key = "email" /\ qp_email q = Some v).
Proof.
  rewrite get_drop_undefined.
  - unfold raw_filters. simpl. split.
    + intros [H | [H | [H | [H | [H | [H | []]]]]]]; injection H as <- <-; tauto.
    + intros [[-> <-] | [[-> <-] | [[-> <-] | [[-> <-] | [[-> <-] | [-> <-]]]]]]; tauto.
  - unfold raw_filters. simpl.
    repeat (constructor; [simpl; intros H; repeat destruct H as [H | H];
                          try discriminate H; try exact H|]).
    constructor.
Qed.

End FiltersObjectProps.
